(** * mcp-todo: the task repository and query engine of
      [src/mcp_server_todo/service.py], embedded and verified.

    The service keeps every task in one line-oriented file.  Each public
    operation loads the whole file, works on the list in memory and, for a
    mutation, writes the whole list back.  The embedding keeps that shape:
    the file is a [World], the operations pass it explicitly, and the
    exceptions the Python code can raise are values of [result]. *)

From Stdlib Require Import ZArith List String Ascii Bool Lia Permutation.
From Stdlib Require Import Sorted.
Import ListNotations.
Open Scope Z_scope.

(** ** Exceptions and the error monad *)

Inductive exn : Type :=
| ValueError
| KeyError
| OverflowError
| TypeError
| ValidationError.

Inductive result (A : Type) : Type :=
| Ok (a : A)
| Raise (e : exn).
Arguments Ok {A} a.
Arguments Raise {A} e.

Definition bind {A B : Type} (m : result A) (k : A -> result B) : result B :=
  match m with
  | Ok a => k a
  | Raise e => Raise e
  end.

Notation "x <- m ;; k" := (bind m (fun x => k))
  (at level 61, m at next level, right associativity).

(** [[x for x in l if p(x)]] where [p] may raise: the comprehension stops
    at the first exception. *)
Fixpoint filterM {A : Type} (p : A -> result bool) (l : list A)
  : result (list A) :=
  match l with
  | [] => Ok []
  | x :: xs =>
      b <- p x ;;
      rest <- filterM p xs ;;
      Ok (if b then x :: rest else rest)
  end.

Fixpoint mapM {A B : Type} (f : A -> result B) (l : list A)
  : result (list B) :=
  match l with
  | [] => Ok []
  | x :: xs =>
      y <- f x ;;
      ys <- mapM f xs ;;
      Ok (y :: ys)
  end.

(** ** Python values *)

(** Truthiness of a [str | None]: neither [None] nor the empty string. *)
Definition truthy_str (o : option string) : bool :=
  match o with
  | Some s => negb (String.eqb s EmptyString)
  | None => false
  end.

(** [==] on two [str | None] values. *)
Definition opt_str_eqb (a b : option string) : bool :=
  match a, b with
  | Some x, Some y => String.eqb x y
  | None, None => true
  | _, _ => false
  end.

(** [max(l, default=d)]. *)
Definition py_max (l : list Z) (default : Z) : Z :=
  match l with
  | [] => default
  | x :: xs => fold_left Z.max xs x
  end.

(** [l[:n]] for an arbitrary Python integer [n]: a negative bound counts
    from the end. *)
Definition slice_to {A : Type} (l : list A) (n : Z) : list A :=
  if 0 <=? n then firstn (Z.to_nat n) l
  else firstn (Z.to_nat (Z.of_nat (List.length l) + n)) l.

(** [str.lower()], on the ASCII letters. *)
Definition lower_ascii (c : ascii) : ascii :=
  let n := nat_of_ascii c in
  if (Nat.leb 65 n && Nat.leb n 90)%bool then ascii_of_nat (n + 32) else c.

Fixpoint lower (s : string) : string :=
  match s with
  | EmptyString => EmptyString
  | String c r => String (lower_ascii c) (lower r)
  end.

(** [sub in s] on strings. *)
Fixpoint contains (sub s : string) : bool :=
  if String.prefix sub s then true
  else match s with
       | EmptyString => false
       | String _ r => contains sub r
       end.

(** ** The schemas *)

Module Task.
Record t : Type := mk {
  id : Z;
  name : string;
  desc : option string;
  tags : option (list string);
  due_date : option string;
  priority : option string;
  status : string;
  created_at : string;
  completed_at : option string
}.
End Task.

Module CreateTask.
Record t : Type := mk {
  name : string;
  desc : option string;
  tags : option (list string);
  due_date : option string;
  priority : option string
}.
End CreateTask.

Module UpdateTask.
Record t : Type := mk {
  id : Z;
  name : option string;
  desc : option string;
  tags : option (list string);
  due_date : option string;
  priority : option string;
  status : option string
}.
End UpdateTask.

Inductive Range : Type := RAll | RDay | RWeek | RMonth | RYear.
Inductive OrderBy : Type := ByDueDate | ByPriority | ById.

Module ListTasks.
Record t : Type := mk {
  keyword : option string;
  tags : option (list string);
  priority : option string;
  status : option string;
  range : option Range;
  orderby : OrderBy;
  limit : option Z
}.

(** [ListTasks()] with every field at its declared default. *)
Definition default : t := mk None None None None None ByDueDate (Some 10).
End ListTasks.

(** Building a [CreateTask] from tool arguments: [name: str] has no
    default, so the schema refuses a request without it; any string, the
    empty one included, is accepted. *)
Definition CreateTask_init (name : option string) (desc : option string)
  (tags : option (list string)) (due_date priority : option string)
  : result CreateTask.t :=
  match name with
  | None => Raise ValidationError
  | Some n => Ok (CreateTask.mk n desc tags due_date priority)
  end.

(** ** The record store *)

(** The storage file: [None] when it does not exist, otherwise its lines,
    decoded.  [saves] counts the calls of [save_tasks], each of which
    rewrites the file. *)
Record World : Type := mkWorld {
  disk : option (list Task.t);
  saves : nat
}.

Definition load_tasks (w : World) : list Task.t :=
  match disk w with
  | None => []
  | Some tasks => tasks
  end.

Definition save_tasks (tasks : list Task.t) (w : World) : World :=
  mkWorld (Some tasks) (S (saves w)).

Definition next_id (w : World) : Z :=
  py_max (map Task.id (load_tasks w)) 0 + 1.

(** ** Task operations *)

(** [now] is the value [timestamp_iso8601()] returns during the call. *)
Definition create_task (data : CreateTask.t) (now : string) (w : World)
  : Task.t * World :=
  let task := Task.mk (next_id w)
                      (CreateTask.name data)
                      (CreateTask.desc data)
                      (CreateTask.tags data)
                      (CreateTask.due_date data)
                      (CreateTask.priority data)
                      "active"%string
                      now
                      None in
  let tasks := load_tasks w in
  let tasks := tasks ++ [task] in
  (task, save_tasks tasks w).

Definition get_task (task_id : Z) (w : World) : option Task.t :=
  find (fun t => Task.id t =? task_id) (load_tasks w).

(** Attribute assignments on a task: [task.name = v] and the like. *)
Definition set_name (v : string) (t : Task.t) : Task.t :=
  Task.mk (Task.id t) v (Task.desc t) (Task.tags t) (Task.due_date t)
          (Task.priority t) (Task.status t) (Task.created_at t)
          (Task.completed_at t).

Definition set_desc (v : string) (t : Task.t) : Task.t :=
  Task.mk (Task.id t) (Task.name t) (Some v) (Task.tags t) (Task.due_date t)
          (Task.priority t) (Task.status t) (Task.created_at t)
          (Task.completed_at t).

Definition set_tags (v : list string) (t : Task.t) : Task.t :=
  Task.mk (Task.id t) (Task.name t) (Task.desc t) (Some v) (Task.due_date t)
          (Task.priority t) (Task.status t) (Task.created_at t)
          (Task.completed_at t).

Definition set_due_date (v : string) (t : Task.t) : Task.t :=
  Task.mk (Task.id t) (Task.name t) (Task.desc t) (Task.tags t) (Some v)
          (Task.priority t) (Task.status t) (Task.created_at t)
          (Task.completed_at t).

Definition set_priority (v : string) (t : Task.t) : Task.t :=
  Task.mk (Task.id t) (Task.name t) (Task.desc t) (Task.tags t)
          (Task.due_date t) (Some v) (Task.status t) (Task.created_at t)
          (Task.completed_at t).

Definition set_status (v : string) (t : Task.t) : Task.t :=
  Task.mk (Task.id t) (Task.name t) (Task.desc t) (Task.tags t)
          (Task.due_date t) (Task.priority t) v (Task.created_at t)
          (Task.completed_at t).

Definition set_completed_at (v : string) (t : Task.t) : Task.t :=
  Task.mk (Task.id t) (Task.name t) (Task.desc t) (Task.tags t)
          (Task.due_date t) (Task.priority t) (Task.status t)
          (Task.created_at t) (Some v).

(** [if data.x is not None: task.x = data.x]. *)
Definition assign_if_given {V : Type} (o : option V)
  (set : V -> Task.t -> Task.t) (t : Task.t) : Task.t :=
  match o with
  | Some v => set v t
  | None => t
  end.

(** The status assignment of [update_task], with its completion rule. *)
Definition assign_status (v now : string) (task : Task.t) : Task.t :=
  let old_status := Task.status task in
  let task := set_status v task in
  if (String.eqb v "completed"
      && negb (String.eqb old_status "completed"))%bool
  then set_completed_at now task
  else task.

(** The assignments of [update_task], in the order of the source. *)
Definition apply_update (data : UpdateTask.t) (now : string) (task : Task.t)
  : Task.t :=
  let task := assign_if_given (UpdateTask.name data) set_name task in
  let task := assign_if_given (UpdateTask.desc data) set_desc task in
  let task := assign_if_given (UpdateTask.tags data) set_tags task in
  let task := assign_if_given (UpdateTask.due_date data) set_due_date task in
  let task := assign_if_given (UpdateTask.priority data) set_priority task in
  assign_if_given (UpdateTask.status data)
                  (fun v => assign_status v now) task.

(** [task] in [update_task] is the first element of [tasks] with the
    requested id, and the assignments mutate that element in place. *)
Fixpoint update_first (p : Task.t -> bool) (f : Task.t -> Task.t)
  (l : list Task.t) : list Task.t :=
  match l with
  | [] => []
  | x :: xs => if p x then f x :: xs else x :: update_first p f xs
  end.

Definition update_task (data : UpdateTask.t) (now : string) (w : World)
  : result Task.t * World :=
  let tasks := load_tasks w in
  let has_id := fun t => Task.id t =? UpdateTask.id data in
  match find has_id tasks with
  | None => (Raise ValueError, w)
  | Some task =>
      let tasks := update_first has_id (apply_update data now) tasks in
      (Ok (apply_update data now task), save_tasks tasks w)
  end.

Definition delete_task (task_id : Z) (w : World) : bool * World :=
  let tasks := load_tasks w in
  let filtered_tasks := filter (fun t => negb (Task.id t =? task_id)) tasks in
  if (List.length filtered_tasks =? List.length tasks)%nat then (false, w)
  else (true, save_tasks filtered_tasks w).

(** ** Calendar dates ([datetime.date])

    A [date] holds its three fields, as the Python object does.  Adding a
    [timedelta] of whole days moves day by day through the proleptic
    Gregorian calendar and fails outside the years 1 to 9999. *)

Record date : Type := mkdate { year : Z; month : Z; day : Z }.

Definition MINYEAR : Z := 1.
Definition MAXYEAR : Z := 9999.

Definition is_leap (y : Z) : bool :=
  ((y mod 4 =? 0) && (negb (y mod 100 =? 0) || (y mod 400 =? 0)))%bool.

Definition days_in_month (y m : Z) : Z :=
  if m =? 2 then (if is_leap y then 29 else 28)
  else if ((m =? 4) || (m =? 6) || (m =? 9) || (m =? 11))%bool then 30
  else 31.

Definition valid_date (d : date) : bool :=
  ((MINYEAR <=? year d) && (year d <=? MAXYEAR)
   && (1 <=? month d) && (month d <=? 12)
   && (1 <=? day d) && (day d <=? days_in_month (year d) (month d)))%bool.

(** [date(y, m, d)]: the constructor checks its fields. *)
Definition date_new (y m d : Z) : result date :=
  if valid_date (mkdate y m d) then Ok (mkdate y m d) else Raise ValueError.

Definition replace_day (d : date) (v : Z) : result date :=
  date_new (year d) (month d) v.

Definition replace_month_day (d : date) (m v : Z) : result date :=
  date_new (year d) m v.

Definition next_day (d : date) : date :=
  if day d <? days_in_month (year d) (month d)
  then mkdate (year d) (month d) (day d + 1)
  else if month d <? 12 then mkdate (year d) (month d + 1) 1
  else mkdate (year d + 1) 1 1.

Definition prev_day (d : date) : date :=
  if 1 <? day d then mkdate (year d) (month d) (day d - 1)
  else if 1 <? month d
  then mkdate (year d) (month d - 1) (days_in_month (year d) (month d - 1))
  else mkdate (year d - 1) 12 31.

(** The date [days] days after [d] (before it, when [days] is negative). *)
Definition shift (d : date) (days : Z) : date :=
  if 0 <=? days then Nat.iter (Z.to_nat days) next_day d
  else Nat.iter (Z.to_nat (- days)) prev_day d.

(** [d + timedelta(days=days)]. *)
Definition date_add (d : date) (days : Z) : result date :=
  let r := shift d days in
  if ((MINYEAR <=? year r) && (year r <=? MAXYEAR))%bool then Ok r
  else Raise OverflowError.

(** Dates compare as the tuples (year, month, day). *)
Definition date_eqb (a b : date) : bool :=
  ((year a =? year b) && (month a =? month b) && (day a =? day b))%bool.

Definition date_ltb (a b : date) : bool :=
  if year a =? year b then
    if month a =? month b then day a <? day b else month a <? month b
  else year a <? year b.

Definition date_leb (a b : date) : bool := negb (date_ltb b a).

(** *** [datetime.strptime(s, "%Y-%m-%d")]

    The format compiles to the pattern
    [(\d\d\d\d)-(1[0-2]|0[1-9]|[1-9])-(3[01]|[12]\d|0[1-9]|[1-9]| [1-9])],
    which has to match the whole string; the fields then go through the
    [date] constructor.  Digits are the ASCII ones. *)

Definition digit (c : ascii) : option Z :=
  let n := Z.of_nat (nat_of_ascii c) in
  if ((48 <=? n) && (n <=? 57))%bool then Some (n - 48) else None.

(** The text before the first ["-"] and the text after it. *)
Fixpoint split_dash (s : string) : option (string * string) :=
  match s with
  | EmptyString => None
  | String c r =>
      if Ascii.eqb c "-"%char then Some (EmptyString, r)
      else match split_dash r with
           | Some (a, b) => Some (String c a, b)
           | None => None
           end
  end.

Definition year_token (s : string) : option Z :=
  match s with
  | String a (String b (String c (String d EmptyString))) =>
      match digit a, digit b, digit c, digit d with
      | Some x, Some y, Some z, Some u =>
          Some (1000 * x + 100 * y + 10 * z + u)
      | _, _, _, _ => None
      end
  | _ => None
  end.

Definition month_token (s : string) : option Z :=
  match s with
  | String a EmptyString =>
      match digit a with
      | Some x => if 1 <=? x then Some x else None
      | None => None
      end
  | String a (String b EmptyString) =>
      match digit a, digit b with
      | Some 1, Some y => if y <=? 2 then Some (10 + y) else None
      | Some 0, Some y => if 1 <=? y then Some y else None
      | _, _ => None
      end
  | _ => None
  end.

Definition day_token (s : string) : option Z :=
  match s with
  | String a EmptyString =>
      match digit a with
      | Some x => if 1 <=? x then Some x else None
      | None => None
      end
  | String a (String b EmptyString) =>
      match digit a, digit b with
      | Some 3, Some y => if y <=? 1 then Some (30 + y) else None
      | Some 1, Some y => Some (10 + y)
      | Some 2, Some y => Some (20 + y)
      | Some 0, Some y => if 1 <=? y then Some y else None
      | None, Some y =>
          if (Ascii.eqb a " "%char && (1 <=? y))%bool then Some y else None
      | _, _ => None
      end
  | _ => None
  end.

(** The date part of the parsed [datetime]; its time part is midnight. *)
Definition strptime_ymd (s : string) : result date :=
  match split_dash s with
  | Some (ys, rest) =>
      match split_dash rest with
      | Some (ms, ds) =>
          match year_token ys, month_token ms, day_token ds with
          | Some y, Some m, Some d => date_new y m d
          | _, _, _ => Raise ValueError
          end
      | None => Raise ValueError
      end
  | None => Raise ValueError
  end.

(** [datetime.strptime(t.due_date, "%Y-%m-%d")], which refuses [None]. *)
Definition due_on (t : Task.t) : result date :=
  match Task.due_date t with
  | Some s => strptime_ymd s
  | None => Raise TypeError
  end.

(** ** The query engine: [list_tasks] *)

(** [filters.status or "active"]. *)
Definition status_or_active (o : option string) : string :=
  match o with
  | Some s => if String.eqb s EmptyString then "active"%string else s
  | None => "active"%string
  end.

(** [filters.limit or 10]. *)
Definition limit_or_10 (o : option Z) : Z :=
  match o with
  | Some n => if n =? 0 then 10 else n
  | None => 10
  end.

(** [x in l] on a list of strings. *)
Definition mem_str (x : string) (l : list string) : bool :=
  existsb (String.eqb x) l.

(** [t.tags and any(tag in t.tags for tag in wanted)]. *)
Definition has_any_tag (wanted : list string) (t : Task.t) : bool :=
  match Task.tags t with
  | Some (x :: xs) => existsb (fun tag => mem_str tag (x :: xs)) wanted
  | _ => false
  end.

(** [keyword in t.name.lower() or (t.desc and keyword in t.desc.lower())]. *)
Definition matches_keyword (keyword : string) (t : Task.t) : bool :=
  (contains keyword (lower (Task.name t))
   || match Task.desc t with
      | Some d =>
          negb (String.eqb d EmptyString) && contains keyword (lower d)
      | None => false
      end)%bool.

(** The status, priority, tag and keyword filters. *)
Definition basic_filters (filters : ListTasks.t) (tasks : list Task.t)
  : list Task.t :=
  let status := status_or_active (ListTasks.status filters) in
  let tasks := filter (fun t => String.eqb (Task.status t) status) tasks in
  let tasks :=
    if truthy_str (ListTasks.priority filters)
    then filter (fun t => opt_str_eqb (Task.priority t)
                                      (ListTasks.priority filters)) tasks
    else tasks in
  let tasks :=
    match ListTasks.tags filters with
    | Some (x :: xs) => filter (has_any_tag (x :: xs)) tasks
    | _ => tasks
    end in
  match ListTasks.keyword filters with
  | Some k =>
      if String.eqb k EmptyString then tasks
      else filter (matches_keyword (lower k)) tasks
  | None => tasks
  end.

(** [lo <= strptime(t.due_date).date() <= hi]. *)
Definition due_within (lo hi : date) (t : Task.t) : result bool :=
  d <- due_on t ;;
  Ok (date_leb lo d && date_leb d hi)%bool.

(** The due-date range filter; [today] is [datetime.now().date()]. *)
Definition range_filter (range : option Range) (today : date)
  (tasks : list Task.t) : result (list Task.t) :=
  match range with
  | None => Ok tasks
  | Some r =>
      let tasks := filter (fun t => truthy_str (Task.due_date t)) tasks in
      match r with
      | RAll => Ok tasks
      | RDay =>
          filterM (fun t => d <- due_on t ;; Ok (date_eqb d today)) tasks
      | RWeek =>
          week_start <- date_add today 1 ;;
          week_end <- date_add today 7 ;;
          filterM (due_within week_start week_end) tasks
      | RMonth =>
          month_start <- date_add today 8 ;;
          first <- replace_day today 1 ;;
          later <- date_add first 32 ;;
          next_first <- replace_day later 1 ;;
          month_end <- date_add next_first (-1) ;;
          filterM (due_within month_start month_end) tasks
      | RYear =>
          first <- replace_day today 1 ;;
          later <- date_add first 32 ;;
          year_start <- replace_day later 1 ;;
          year_end <- replace_month_day today 12 31 ;;
          filterM (due_within year_start year_end) tasks
      end
  end.

(** [list.sort(key=...)]: the keys of all elements are computed first, then
    the elements are ordered by key with a stable sort that only uses [<]. *)
Fixpoint insert_by {K A : Type} (ltb : K -> K -> bool) (x : K * A)
  (l : list (K * A)) : list (K * A) :=
  match l with
  | [] => [x]
  | y :: ys =>
      if ltb (fst y) (fst x) then y :: insert_by ltb x ys else x :: y :: ys
  end.

Fixpoint stable_sort {K A : Type} (ltb : K -> K -> bool) (l : list (K * A))
  : list (K * A) :=
  match l with
  | [] => []
  | x :: xs => insert_by ltb x (stable_sort ltb xs)
  end.

Definition sort_by_key {K : Type} (ltb : K -> K -> bool)
  (key : Task.t -> result K) (tasks : list Task.t) : result (list Task.t) :=
  keys <- mapM key tasks ;;
  Ok (map snd (stable_sort ltb (combine keys tasks))).

(** A [datetime] as its date and the microseconds since midnight. *)
Definition datetime : Type := (date * Z)%type.

Definition datetime_max : datetime := (mkdate 9999 12 31, 86399999999).

Definition datetime_ltb (a b : datetime) : bool :=
  (date_ltb (fst a) (fst b)
   || (date_eqb (fst a) (fst b) && (snd a <? snd b)))%bool.

(** [strptime(t.due_date, "%Y-%m-%d") if t.due_date else datetime.max]. *)
Definition due_date_key (t : Task.t) : result datetime :=
  if truthy_str (Task.due_date t)
  then d <- due_on t ;; Ok (d, 0)
  else Ok datetime_max.

(** [priority_order[t.priority]] with
    [{"high": 0, "medium": 1, "low": 2, None: 3, "none": 3}]. *)
Definition priority_order (p : option string) : result Z :=
  match p with
  | None => Ok 3
  | Some s =>
      if String.eqb s "high" then Ok 0
      else if String.eqb s "medium" then Ok 1
      else if String.eqb s "low" then Ok 2
      else if String.eqb s "none" then Ok 3
      else Raise KeyError
  end.

Definition sort_tasks (orderby : OrderBy) (tasks : list Task.t)
  : result (list Task.t) :=
  match orderby with
  | ByDueDate => sort_by_key datetime_ltb due_date_key tasks
  | ByPriority =>
      sort_by_key Z.ltb (fun t => priority_order (Task.priority t)) tasks
  | ById => sort_by_key Z.ltb (fun t => Ok (Task.id t)) tasks
  end.

Definition list_tasks (filters : ListTasks.t) (today : date) (w : World)
  : result (list Task.t) :=
  let tasks := load_tasks w in
  let tasks := basic_filters filters tasks in
  tasks <- range_filter (ListTasks.range filters) today tasks ;;
  tasks <- sort_tasks (ListTasks.orderby filters) tasks ;;
  let limit := limit_or_10 (ListTasks.limit filters) in
  Ok (slice_to tasks limit).

(** ** The tool-calling front end, creation path *)

(** [call_tool] for [task_create]: the request is built from the raw
    arguments and handed to [create_task]; an exception leaves through the
    [except] clause as an error text and the store is not touched. *)
Definition tool_create (name desc : option string)
  (tags : option (list string)) (due_date priority : option string)
  (now : string) (w : World) : result Task.t * World :=
  match CreateTask_init name desc tags due_date priority with
  | Ok data => let (task, w') := create_task data now w in (Ok task, w')
  | Raise e => (Raise e, w)
  end.

(** ** Runs of create and delete operations *)

Inductive op : Type :=
| Create (data : CreateTask.t) (now : string)
| Delete (task_id : Z).

(** Executes the operations in order; returns the identifiers handed out by
    the creations, oldest first, and the final store. *)
Fixpoint run (ops : list op) (w : World) : list Z * World :=
  match ops with
  | [] => ([], w)
  | Create data now :: rest =>
      let (task, w1) := create_task data now w in
      let (ids, w2) := run rest w1 in
      (Task.id task :: ids, w2)
  | Delete task_id :: rest => run rest (snd (delete_task task_id w))
  end.

(** The identifiers of the tasks in the store. *)
Definition live_ids (w : World) : list Z := map Task.id (load_tasks w).

(** ** Concrete stores and requests used in examples *)

Definition empty_world : World := mkWorld None 0.

Definition plain (name : string) : CreateTask.t :=
  CreateTask.mk name None None None None.

(** Create a task, delete it, create another one. *)
Definition reuse_ops : list op :=
  [Create (plain "first") "2024-06-10T09:00:00";
   Delete 1;
   Create (plain "second") "2024-06-10T09:05:00"].

(** An update request that carries only [id] and [priority]. *)
Definition priority_only (task_id : Z) (p : string) : UpdateTask.t :=
  UpdateTask.mk task_id None None None None (Some p) None.

(** Whether an update moves the task into ["completed"] from another
    status. *)
Definition enters_completed (data : UpdateTask.t) (task : Task.t) : bool :=
  match UpdateTask.status data with
  | Some s =>
      (String.eqb s "completed"
       && negb (String.eqb (Task.status task) "completed"))%bool
  | None => false
  end.

Definition sample_task : Task.t :=
  Task.mk 1 "Ship report" None None (Some "2024-06-11"%string)
          (Some "high"%string) "active" "2024-06-10T09:00:00" None.

Definition sample_world : World := mkWorld (Some [sample_task]) 1.

(** [UpdateTask(id=1, status="completed")], the request of [finish 1]. *)
Definition finish_request : UpdateTask.t :=
  UpdateTask.mk 1 None None None None None (Some "completed"%string).

(** The result of [list_tasks] before the limit is applied: the tasks that
    pass every filter, sorted. *)
Definition sorted_matches (filters : ListTasks.t) (today : date) (w : World)
  : result (list Task.t) :=
  tasks <- range_filter (ListTasks.range filters) today
                        (basic_filters filters (load_tasks w)) ;;
  sort_tasks (ListTasks.orderby filters) tasks.

(** A task has a due date that reads as a calendar date in [[lo, hi]]. *)
Definition due_between (lo hi : date) (t : Task.t) : bool :=
  (truthy_str (Task.due_date t)
   && match due_on t with
      | Ok d => date_leb lo d && date_leb d hi
      | Raise _ => false
      end)%bool.

(** Every due date in the list reads as a calendar date. *)
Definition due_dates_parse (tasks : list Task.t) : Prop :=
  forall t, In t tasks -> truthy_str (Task.due_date t) = true ->
            exists d, due_on t = Ok d.

(** Every priority in the list is a key of the sort table. *)
Definition priorities_known (tasks : list Task.t) : Prop :=
  forall t, In t tasks -> exists k, priority_order (Task.priority t) = Ok k.

(** The keys of [priority_order] that are strings. *)
Definition priority_names : list string :=
  ["high"; "medium"; "low"; "none"]%string.

(** A task with the given identifier and status, no other field set. *)
Definition bare (i : Z) (status : string) : Task.t :=
  Task.mk i "task" None None None None status "2024-06-01T08:00:00" None.


(** One task of each status. *)
Definition mixed_world : World :=
  mkWorld (Some [bare 1 "completed"; bare 2 "active"; bare 3 "archived"]) 3.

Definition by_id (limit : option Z) : ListTasks.t :=
  ListTasks.mk None None None None None ById limit.

Definition by_priority : ListTasks.t :=
  ListTasks.mk None None None None None ByPriority (Some 10).

Definition june_10 : date := mkdate 2024 6 10.

(** ** Calendar landmarks relative to a date *)

Definition last_day_of_month (d : date) : date :=
  mkdate (year d) (month d) (days_in_month (year d) (month d)).

Definition first_of_next_month (d : date) : date :=
  if month d <? 12 then mkdate (year d) (month d + 1) 1
  else mkdate (year d + 1) 1 1.

Definition last_day_of_year (d : date) : date := mkdate (year d) 12 31.

(** The first day of the month that follows the quarter of [d], as the
    specification words the start of the year bucket. *)
Definition first_after_quarter (d : date) : date :=
  let quarter_month := ((month d - 1) / 3 + 1) * 3 in
  if quarter_month <? 12 then mkdate (year d) (quarter_month + 1) 1
  else mkdate (year d + 1) 1 1.

(** Closed form of [shift d n] for a step that crosses at most one month
    end. *)
Definition add_small (d : date) (n : Z) : date :=
  if day d + n <=? days_in_month (year d) (month d)
  then mkdate (year d) (month d) (day d + n)
  else if month d <? 12
  then mkdate (year d) (month d + 1)
              (day d + n - days_in_month (year d) (month d))
  else mkdate (year d + 1) 1 (day d + n - days_in_month (year d) (month d)).

(** A task is due exactly on the given day. *)
Definition due_exactly (day : date) (t : Task.t) : bool :=
  (truthy_str (Task.due_date t)
   && match due_on t with
      | Ok d => date_eqb d day
      | Raise _ => false
      end)%bool.

(** Sorting and cutting, the last two steps of [list_tasks]. *)
Definition sort_and_limit (filters : ListTasks.t) (kept : list Task.t)
  : result (list Task.t) :=
  sorted <- sort_tasks (ListTasks.orderby filters) kept ;;
  Ok (slice_to sorted (limit_or_10 (ListTasks.limit filters))).

(** An active task with the given identifier and due date. *)
Definition due (i : Z) (d : string) : Task.t :=
  Task.mk i "task" None None (Some d) None "active" "2024-06-01T08:00:00"
          None.

(** Tasks due on June 10, 11 and 18 of 2024. *)
Definition june_world : World :=
  mkWorld (Some [due 1 "2024-06-10"; due 2 "2024-06-11";
                 due 3 "2024-06-18"]) 3.

(** One task due on February 10 of 2024. *)
Definition february_world : World :=
  mkWorld (Some [due 1 "2024-02-10"]) 1.

Definition january_15 : date := mkdate 2024 1 15.

(** A query for one range bucket, every other field at its default. *)
Definition in_range (r : Range) : ListTasks.t :=
  ListTasks.mk None None None None (Some r) ByDueDate (Some 10).

(** The store after the tool call [task_create] with priority
    ["urgent"], a value the schema lets through. *)
Definition urgent_world : World :=
  snd (tool_create (Some "Call Bob"%string) None None None
                   (Some "urgent"%string) "2024-06-10T09:00:00"
                   empty_world).

(** ** More requests and runs used in examples *)

Definition is_create (o : op) : bool :=
  match o with
  | Create _ _ => true
  | Delete _ => false
  end.

(** Three creations in a row. *)
Definition create_ops : list op :=
  [Create (plain "first") "2024-06-10T09:00:00";
   Create (plain "second") "2024-06-10T09:05:00";
   Create (plain "third") "2024-06-10T09:10:00"].

(** [UpdateTask(id=i, status="completed")], the request of the [finish]
    command. *)
Definition finish (i : Z) : UpdateTask.t :=
  UpdateTask.mk i None None None None None (Some "completed"%string).

(** ** Reading the sort keys *)

(** The rank of a task under [orderby="priority"]: 0 for high, 1 for
    medium, 2 for low, 3 for none or absent. *)
Definition priority_rank (t : Task.t) : result Z :=
  priority_order (Task.priority t).

(** The sort key [list_tasks] computes for a task under each [orderby]. *)
Definition has_due_date (t : Task.t) : bool := truthy_str (Task.due_date t).

Definition datetime_eqb (a b : datetime) : bool :=
  (date_eqb (fst a) (fst b) && (snd a =? snd b))%bool.


(** [t] has the same sort key as the reference task [t0]. *)
Definition same_sort_key (orderby : OrderBy) (t0 t : Task.t) : bool :=
  match orderby with
  | ById => Task.id t =? Task.id t0
  | ByPriority =>
      match priority_rank t, priority_rank t0 with
      | Ok r, Ok r0 => r =? r0
      | _, _ => false
      end
  | ByDueDate =>
      match due_date_key t, due_date_key t0 with
      | Ok k, Ok k0 => datetime_eqb k k0
      | _, _ => false
      end
  end.

(** Four tasks with priorities low, high, absent and high. *)
Definition ranked (i : Z) (p : option string) : Task.t :=
  Task.mk i "task" None None None p "active" "2024-06-01T08:00:00" None.

Definition ranked_world : World :=
  mkWorld (Some [ranked 1 (Some "low"%string); ranked 2 (Some "high"%string);
                 ranked 3 None; ranked 4 (Some "high"%string)]) 4.

(** The store after the tool call [task_create] with the due date
    ["tomorrow"]: the tool interface hands the string to the engine as it
    is. *)
Definition tomorrow_world : World :=
  snd (tool_create (Some "Call Bob"%string) None None
                   (Some "tomorrow"%string) None "2024-06-10T09:00:00"
                   empty_world).





Definition june_28 : date := mkdate 2024 6 28.

(** One task due on July 1 of 2024. *)
Definition july_world : World := mkWorld (Some [due 1 "2024-07-01"]) 1.

Definition december_20 : date := mkdate 2024 12 20.

(** One task due on December 30 of 2024. *)
Definition december_world : World :=
  mkWorld (Some [due 1 "2024-12-30"]) 1.

(** ** The command-line front ends: [parse_tags]

    [parse_tags] is the same function in [mcp_server_todo/cli.py] and in
    [todo/cli.py]. *)

(** [c.isspace()] on the ASCII characters: tab to carriage return, the
    four separators 28 to 31, and the space. *)
Definition is_space (c : ascii) : bool :=
  let n := nat_of_ascii c in
  ((Nat.leb 9 n && Nat.leb n 13) || (Nat.leb 28 n && Nat.leb n 32))%bool.

(** [s.lstrip()], [s.rstrip()] and [s.strip()]. *)
Fixpoint lstrip (s : string) : string :=
  match s with
  | EmptyString => EmptyString
  | String c r => if is_space c then lstrip r else s
  end.

Fixpoint rstrip (s : string) : string :=
  match s with
  | EmptyString => EmptyString
  | String c r =>
      match rstrip r with
      | EmptyString => if is_space c then EmptyString else String c EmptyString
      | r' => String c r'
      end
  end.

Definition strip (s : string) : string := rstrip (lstrip s).

(** [s.split(sep)] for a one-character separator: the pieces between the
    separators, at least one piece. *)
Fixpoint split_on (sep : ascii) (s : string) : list string :=
  match s with
  | EmptyString => [EmptyString]
  | String c r =>
      if Ascii.eqb c sep then EmptyString :: split_on sep r
      else match split_on sep r with
           | p :: ps => String c p :: ps
           | [] => [String c EmptyString]
           end
  end.


Definition nonempty (s : string) : bool := negb (String.eqb s EmptyString).

Definition parse_tags (tags_str : option string) : option (list string) :=
  match tags_str with
  | None => None
  | Some s =>
      if String.eqb s EmptyString then None
      else Some (map strip
                     (filter (fun tag => nonempty (strip tag))
                             (split_on "," s)))
  end.

(** No comma in a string. *)
Fixpoint comma_free (s : string) : bool :=
  match s with
  | EmptyString => true
  | String c r => (negb (Ascii.eqb c ",") && comma_free r)%bool
  end.

(** A tag as [parse_tags] produces them: not empty, without a comma, and
    with no white space at either end. *)
Definition clean_tag (s : string) : Prop :=
  s <> EmptyString /\ comma_free s = true /\ strip s = s.

(** Only commas and white space in a string. *)
Fixpoint only_separators (s : string) : bool :=
  match s with
  | EmptyString => true
  | String c r =>
      ((Ascii.eqb c "," || is_space c) && only_separators r)%bool
  end.

(** ** The command-line front end of [todo/cli.py]: due-date shorthand *)

(** *** More of [datetime] *)

(** [date.toordinal()]: day 1 is January 1 of year 1. *)
Definition days_before_year (y : Z) : Z :=
  let y := y - 1 in
  y * 365 + y / 4 - y / 100 + y / 400.

Definition DAYS_BEFORE_MONTH : list Z :=
  [-1; 0; 31; 59; 90; 120; 151; 181; 212; 243; 273; 304; 334].

Definition days_before_month (y m : Z) : Z :=
  nth (Z.to_nat m) DAYS_BEFORE_MONTH 0
  + (if ((2 <? m) && is_leap y)%bool then 1 else 0).

Definition toordinal (d : date) : Z :=
  days_before_year (year d) + days_before_month (year d) (month d) + day d.

(** [date.weekday()]: Monday is 0 and Sunday is 6. *)
Definition weekday (d : date) : Z := (toordinal d + 6) mod 7.

(** [datetime(y, m, d, 23, 59, 59)] and [datetime(y, m, d)], with the
    time in microseconds since midnight. *)
Definition end_of_day : Z := ((23 * 60 + 59) * 60 + 59) * 1000000.

Definition datetime_new (y m d us : Z) : result datetime :=
  day <- date_new y m d ;;
  Ok (day, us).

(** [dt + timedelta(days=days)]: the time of day is kept. *)
Definition datetime_add (dt : datetime) (days : Z) : result datetime :=
  day <- date_add (fst dt) days ;;
  Ok (day, snd dt).

(** [dt.replace(hour=23, minute=59, second=59)]: the microseconds stay. *)
Definition replace_time_end_of_day (dt : datetime) : datetime :=
  (fst dt, end_of_day + snd dt mod 1000000).

(** [dt.strftime("%Y-%m-%d")], for the years from 1000 on, where the year
    has four digits on every platform. *)
Definition digit_char (k : Z) : ascii := ascii_of_nat (48 + Z.to_nat k).

Definition pad2 (n : Z) : string :=
  String (digit_char (n / 10)) (String (digit_char (n mod 10)) EmptyString).

Definition pad4 (n : Z) : string :=
  String (digit_char (n / 1000))
    (String (digit_char (n / 100 mod 10))
       (String (digit_char (n / 10 mod 10))
          (String (digit_char (n mod 10)) EmptyString))).

Definition strftime_ymd (d : date) : string :=
  (pad4 (year d) ++ String "-" (pad2 (month d) ++ String "-" (pad2 (day d))))
    %string.

(** *** The helpers of [parse_due_date] *)

Definition get_end_of_week (dt : datetime) : result datetime :=
  let days_ahead := 6 - weekday (fst dt) in
  datetime_add (replace_time_end_of_day dt) days_ahead.

Definition get_end_of_quarter (dt : datetime) : result datetime :=
  let quarter_month := ((month (fst dt) - 1) / 3 + 1) * 3 in
  if quarter_month =? 12
  then datetime_new (year (fst dt)) 12 31 end_of_day
  else
    next_month <- datetime_new (year (fst dt)) (quarter_month + 1) 1
                               end_of_day ;;
    datetime_add next_month (-1).

Definition get_end_of_year (dt : datetime) : result datetime :=
  datetime_new (year (fst dt)) 12 31 end_of_day.

(** What a call of [parse_due_date] comes to: a value, an exception of the
    engine's kinds, or [click.BadParameter]. *)
Inductive click_result (A : Type) : Type :=
| Returns (a : A)
| Raises (e : exn)
| BadParameter.
Arguments Returns {A} a.
Arguments Raises {A} e.
Arguments BadParameter {A}.

(** The [strftime] of a computed date, or the exception of the
    computation. *)
Definition formatted (r : result datetime) : click_result (option string) :=
  match r with
  | Ok dt => Returns (Some (strftime_ymd (fst dt)))
  | Raise e => Raises e
  end.

(** [today] is [datetime.now()]. *)
Definition parse_due_date (due : option string) (today : datetime)
  : click_result (option string) :=
  match due with
  | None => Returns None
  | Some s =>
      if String.eqb s EmptyString then Returns None
      else
        let due := lower s in
        if String.eqb due "today" then formatted (Ok today)
        else if String.eqb due "tomorrow" then formatted (datetime_add today 1)
        else if String.eqb due "week" then formatted (get_end_of_week today)
        else if String.eqb due "month" then
          formatted
            (next_month <-
               (if month (fst today) =? 12
                then datetime_new (year (fst today) + 1) 1 1 0
                else datetime_new (year (fst today))
                                  (month (fst today) + 1) 1 0) ;;
             datetime_add next_month (-1))
        else if String.eqb due "quarter"
        then formatted (get_end_of_quarter today)
        else if String.eqb due "year" then formatted (get_end_of_year today)
        else match strptime_ymd due with
             | Ok _ => Returns (Some due)
             | Raise ValueError => BadParameter
             | Raise e => Raises e
             end
  end.

(** The shorthand words. *)
Definition shorthands : list string :=
  ["today"; "tomorrow"; "week"; "month"; "quarter"; "year"]%string.

(** The last month of the quarter of a month. *)
Definition quarter_end_month (m : Z) : Z := ((m - 1) / 3 + 1) * 3.

(** The date each shorthand stands for on a given day. *)
Definition shorthand_date (word : string) (day : date) : date :=
  if String.eqb word "today" then day
  else if String.eqb word "tomorrow" then next_day day
  else if String.eqb word "week" then shift day (6 - weekday day)
  else if String.eqb word "month" then last_day_of_month day
  else if String.eqb word "quarter"
  then last_day_of_month
         (mkdate (year day) (quarter_end_month (month day)) 1)
  else last_day_of_year day.

(** Monday, June 10 of 2024, at 14:30. *)
Definition june_10_afternoon : datetime := (june_10, 52200000000).

(** Tasks due in the second half of 2024 and on the first day of 2025. *)
Definition summer_world : World :=
  mkWorld (Some [due 1 "2024-06-17"; due 2 "2024-06-18";
                 due 3 "2024-06-30"; due 4 "2024-07-01";
                 due 5 "2024-12-31"; due 6 "2025-01-01"]) 6.

(** * Properties of the record store and the mutations *)

Section ListFacts.
Context {A : Type}.

Lemma filter_length_le (p : A -> bool) (l : list A) :
  (List.length (filter p l) <= List.length l)%nat.
Proof.
  induction l as [|x xs IH]; simpl; [lia|].
  destruct (p x); simpl; lia.
Qed.

Lemma filter_same_length (p : A -> bool) (l : list A) :
  List.length (filter p l) = List.length l -> filter p l = l.
Proof.
  induction l as [|x xs IH]; simpl; intros H; [reflexivity|].
  destruct (p x); simpl in H.
  - f_equal. apply IH. lia.
  - pose proof (filter_length_le p xs). lia.
Qed.

Lemma filter_all (p : A -> bool) (l : list A) :
  (forall x, In x l -> p x = true) -> filter p l = l.
Proof.
  induction l as [|x xs IH]; simpl; intros H; [reflexivity|].
  rewrite (H x (or_introl eq_refl)). f_equal. apply IH. intros y Hy.
  apply H. now right.
Qed.

Lemma filter_absorb (p q : A -> bool) (l : list A) :
  (forall x, q x = true -> p x = true) ->
  filter q (filter p l) = filter q l.
Proof.
  intros H. induction l as [|x xs IH]; simpl; [reflexivity|].
  destruct (p x) eqn:Ep; simpl.
  - now rewrite IH.
  - destruct (q x) eqn:Eq; [|exact IH].
    apply H in Eq. congruence.
Qed.

End ListFacts.

Lemma fold_max_ge_acc (l : list Z) (a : Z) : a <= fold_left Z.max l a.
Proof.
  revert a. induction l as [|x xs IH]; simpl; intros a; [lia|].
  specialize (IH (Z.max a x)). lia.
Qed.

Lemma fold_max_ge_elem (l : list Z) (a x : Z) :
  In x l -> x <= fold_left Z.max l a.
Proof.
  revert a. induction l as [|y ys IH]; simpl; intros a H; [contradiction|].
  destruct H as [->|H].
  - pose proof (fold_max_ge_acc ys (Z.max a x)). lia.
  - now apply IH.
Qed.

Lemma py_max_ge (l : list Z) (d x : Z) : In x l -> x <= py_max l d.
Proof.
  destruct l as [|y ys]; simpl; intros H; [contradiction|].
  destruct H as [->|H].
  - apply fold_max_ge_acc.
  - now apply fold_max_ge_elem.
Qed.

Lemma next_id_above (w : World) (i : Z) : In i (live_ids w) -> i < next_id w.
Proof.
  intros H. unfold next_id. apply (py_max_ge _ 0) in H. fold (live_ids w). lia.
Qed.

Lemma load_save (tasks : list Task.t) (w : World) :
  load_tasks (save_tasks tasks w) = tasks.
Proof. reflexivity. Qed.

Lemma create_task_live_ids (data : CreateTask.t) (now : string) (w : World) :
  live_ids (snd (create_task data now w)) = live_ids w ++ [next_id w].
Proof.
  unfold live_ids, create_task, snd, save_tasks, load_tasks at 1, disk.
  now rewrite map_app.
Qed.

Lemma delete_task_live_ids (task_id : Z) (w : World) :
  live_ids (snd (delete_task task_id w))
  = filter (fun i => negb (i =? task_id)) (live_ids w).
Proof.
  unfold live_ids, delete_task.
  set (p := fun t => negb (Task.id t =? task_id)).
  assert (Hmap : forall l, map Task.id (filter p l)
                 = filter (fun i => negb (i =? task_id)) (map Task.id l)).
  { induction l as [|x xs IH]; simpl; [reflexivity|].
    unfold p at 1. destruct (negb (Task.id x =? task_id)); simpl;
      now rewrite IH. }
  destruct (Nat.eqb_spec (List.length (filter p (load_tasks w)))
                         (List.length (load_tasks w))) as [E|E]; simpl.
  - apply filter_same_length in E. rewrite <- Hmap. now rewrite E.
  - apply Hmap.
Qed.


(** ** Identity allocation *)




(** ** Creation *)

(** C5, as stated, fails: a request with the empty name is accepted.  On
    the empty store it creates task 1 with an empty name and writes it. *)
Lemma create_task_accepts_empty_name :
  tool_create (Some EmptyString) None None None None "2024-06-10T09:00:00"
              empty_world
  = (Ok (Task.mk 1 EmptyString None None None None "active"
                 "2024-06-10T09:00:00" None),
     mkWorld (Some [Task.mk 1 EmptyString None None None None "active"
                            "2024-06-10T09:00:00" None]) 1).
Proof. reflexivity. Qed.

(** C5, amended: a request without a name is refused with a validation
    error when the request is built, and the store is left as it was, with
    no write; a request with any name, the empty one included, succeeds,
    and the new task carries exactly the requested name, gets the next
    identifier and status ["active"], and is appended to the store in one
    write. *)
Theorem create_task_name :
  forall (desc : option string) (tags : option (list string))
         (due_date priority : option string) (now : string) (w : World),
    tool_create None desc tags due_date priority now w
    = (Raise ValidationError, w)
    /\ forall name : string,
        exists task w',
          tool_create (Some name) desc tags due_date priority now w
          = (Ok task, w')
          /\ Task.name task = name
          /\ Task.id task = next_id w
          /\ Task.status task = "active"%string
          /\ load_tasks w' = load_tasks w ++ [task]
          /\ saves w' = S (saves w).
Proof.
  intros desc tags due_date priority now w. split; [reflexivity|].
  intros name. eexists. eexists. split; [reflexivity|].
  repeat split.
Qed.

(** ** Deletion *)

(** C6: when some task has the identifier, [delete_task] returns true and
    the store is rewritten once, without the tasks of that identifier and
    with the others kept in order; when no task has it, [delete_task]
    returns false and the store is the one it was given: same content and
    no write. *)
Theorem delete_task_spec :
  forall (task_id : Z) (w : World),
    ((exists t, In t (load_tasks w) /\ Task.id t = task_id) ->
     delete_task task_id w
     = (true,
        mkWorld (Some (filter (fun t => negb (Task.id t =? task_id))
                              (load_tasks w)))
                (S (saves w)))
     /\ ~ In task_id (live_ids (snd (delete_task task_id w))))
    /\ ((forall t, In t (load_tasks w) -> Task.id t <> task_id) ->
        delete_task task_id w = (false, w)).
Proof.
  intros task_id w. split.
  - intros (t & Hin & Hid).
    assert (Hne : filter (fun t => negb (Task.id t =? task_id))
                         (load_tasks w) <> load_tasks w).
    { intros E. rewrite <- E in Hin. apply filter_In in Hin as [_ Hin].
      rewrite Hid, Z.eqb_refl in Hin. discriminate. }
    split.
    + unfold delete_task.
      destruct (Nat.eqb_spec
                  (List.length (filter (fun t => negb (Task.id t =? task_id))
                                       (load_tasks w)))
                  (List.length (load_tasks w))) as [E|E].
      * apply filter_same_length in E. contradiction.
      * reflexivity.
    + rewrite delete_task_live_ids. intros H. apply filter_In in H as [_ H].
      rewrite Z.eqb_refl in H. discriminate.
  - intros Hall. unfold delete_task.
    rewrite filter_all, Nat.eqb_refl; [reflexivity|].
    intros t Ht. apply Hall in Ht.
    now destruct (Z.eqb_spec (Task.id t) task_id).
Qed.

Lemma delete_task_spec_witness :
  (exists t, In t (load_tasks (snd (run reuse_ops empty_world)))
             /\ Task.id t = 1)
  /\ fst (delete_task 1 (snd (run reuse_ops empty_world))) = true
  /\ (forall t, In t (load_tasks empty_world) -> Task.id t <> 9999)
  /\ delete_task 9999 empty_world = (false, empty_world).
Proof.
  assert (H1 : exists t, In t (load_tasks (snd (run reuse_ops empty_world)))
                         /\ Task.id t = 1).
  { eexists. split; [left; reflexivity|reflexivity]. }
  assert (H2 : forall t, In t (load_tasks empty_world) -> Task.id t <> 9999).
  { intros t []. }
  split; [exact H1|]. split.
  - destruct (delete_task_spec 1 (snd (run reuse_ops empty_world)))
      as [Hyes _].
    destruct (Hyes H1) as [E _]. now rewrite E.
  - split; [exact H2|].
    destruct (delete_task_spec 9999 empty_world) as [_ Hno].
    exact (Hno H2).
Defined.

(** ** Update *)

(** What the assignments before the status assignment leave alone. *)
Lemma assign_if_given_keeps {V F : Type} (f : Task.t -> F) (o : option V)
  (set : V -> Task.t -> Task.t) (t : Task.t) :
  (forall v x, f (set v x) = f x) -> f (assign_if_given o set t) = f t.
Proof. intros H. destruct o; simpl; auto. Qed.

Lemma assign_status_id (v now : string) (t : Task.t) :
  Task.id (assign_status v now t) = Task.id t.
Proof.
  unfold assign_status.
  destruct (String.eqb v "completed" && _)%bool; reflexivity.
Qed.

Lemma apply_update_id (data : UpdateTask.t) (now : string) (task : Task.t) :
  Task.id (apply_update data now task) = Task.id task.
Proof.
  unfold apply_update. cbv zeta.
  rewrite (assign_if_given_keeps Task.id) by (intros; apply assign_status_id).
  now rewrite !(assign_if_given_keeps Task.id) by reflexivity.
Qed.

Lemma find_update_first (p : Task.t -> bool) (f : Task.t -> Task.t)
  (l : list Task.t) (t : Task.t) :
  find p l = Some t -> p (f t) = true ->
  find p (update_first p f l) = Some (f t).
Proof.
  induction l as [|x xs IH]; simpl; intros H Hp; [discriminate|].
  destruct (p x) eqn:E.
  - injection H as ->. simpl. now rewrite Hp.
  - simpl. rewrite E. now apply IH.
Qed.

(** The tasks other than the first one with the identifier are not
    touched. *)
Lemma update_first_others (p : Task.t -> bool) (f : Task.t -> Task.t)
  (l : list Task.t) (t : Task.t) :
  find p l = Some t ->
  forall x, In x (update_first p f l) -> x = f t \/ In x l.
Proof.
  induction l as [|y ys IH]; simpl; intros H x Hx; [discriminate|].
  destruct (p y) eqn:E.
  - injection H as ->. destruct Hx as [<-|Hx]; auto.
  - destruct Hx as [<-|Hx]; auto.
    destruct (IH H x Hx); auto.
Qed.

Lemma update_task_found (data : UpdateTask.t) (now : string) (w : World)
  (task : Task.t) :
  get_task (UpdateTask.id data) w = Some task ->
  update_task data now w
  = (Ok (apply_update data now task),
     save_tasks (update_first (fun t => Task.id t =? UpdateTask.id data)
                              (apply_update data now) (load_tasks w)) w)
  /\ get_task (UpdateTask.id data) (snd (update_task data now w))
     = Some (apply_update data now task).
Proof.
  unfold get_task, update_task. intros H. rewrite H. split; [reflexivity|].
  cbn [snd]. rewrite load_save. apply find_update_first; [exact H|].
  rewrite apply_update_id. now apply find_some in H.
Qed.

(** C4: an update of an existing task sets [completed_at] to the current
    timestamp exactly when the request sets the status to ["completed"] and
    the task's status before the update is not ["completed"]; in every
    other case, whatever else the request changes, [completed_at] is the
    one the task had, so a timestamp that was set is never cleared.  The
    updated task is the one persisted. *)
Theorem update_task_completed_at :
  forall (data : UpdateTask.t) (now : string) (w : World) (task : Task.t),
    get_task (UpdateTask.id data) w = Some task ->
    exists task',
      fst (update_task data now w) = Ok task'
      /\ get_task (UpdateTask.id data) (snd (update_task data now w))
         = Some task'
      /\ Task.completed_at task'
         = (if enters_completed data task then Some now
            else Task.completed_at task)
      /\ (Task.completed_at task <> None -> Task.completed_at task' <> None).
Proof.
  intros data now w task H.
  destruct (update_task_found data now w task H) as [E1 E2].
  exists (apply_update data now task).
  split; [now rewrite E1|]. split; [exact E2|].
  assert (Hc : Task.completed_at (apply_update data now task)
               = (if enters_completed data task then Some now
                  else Task.completed_at task)).
  { unfold apply_update, enters_completed. cbv zeta.
    set (t5 := assign_if_given (UpdateTask.priority data) set_priority _).
    assert (Hs : Task.status t5 = Task.status task).
    { subst t5. now rewrite !(assign_if_given_keeps Task.status). }
    assert (Hk : Task.completed_at t5 = Task.completed_at task).
    { subst t5. now rewrite !(assign_if_given_keeps Task.completed_at). }
    destruct (UpdateTask.status data) as [v|]; simpl; [|exact Hk].
    unfold assign_status. rewrite Hs.
    destruct (String.eqb v "completed"
              && negb (String.eqb (Task.status task) "completed"))%bool;
      [reflexivity|exact Hk]. }
  split; [exact Hc|].
  rewrite Hc. destruct (enters_completed data task); [discriminate|auto].
Qed.

Lemma update_task_completed_at_witness :
  get_task (UpdateTask.id finish_request) sample_world = Some sample_task
  /\ exists task',
      fst (update_task finish_request "2024-06-12T18:00:00" sample_world)
      = Ok task'
      /\ get_task (UpdateTask.id finish_request)
           (snd (update_task finish_request "2024-06-12T18:00:00"
                             sample_world))
         = Some task'
      /\ Task.completed_at task'
         = (if enters_completed finish_request sample_task
            then Some "2024-06-12T18:00:00"%string
            else Task.completed_at sample_task)
      /\ (Task.completed_at sample_task <> None ->
          Task.completed_at task' <> None).
Proof.
  split; [reflexivity|].
  apply (update_task_completed_at finish_request "2024-06-12T18:00:00"
                                  sample_world sample_task).
  reflexivity.
Defined.

(** Every field of the task after the assignments of [update_task], in
    terms of the request and of the task before. *)
Lemma apply_update_fields (data : UpdateTask.t) (now : string)
  (task : Task.t) :
  Task.id (apply_update data now task) = Task.id task
  /\ Task.name (apply_update data now task)
     = match UpdateTask.name data with
       | Some v => v
       | None => Task.name task
       end
  /\ Task.desc (apply_update data now task)
     = match UpdateTask.desc data with
       | Some v => Some v
       | None => Task.desc task
       end
  /\ Task.tags (apply_update data now task)
     = match UpdateTask.tags data with
       | Some v => Some v
       | None => Task.tags task
       end
  /\ Task.due_date (apply_update data now task)
     = match UpdateTask.due_date data with
       | Some v => Some v
       | None => Task.due_date task
       end
  /\ Task.priority (apply_update data now task)
     = match UpdateTask.priority data with
       | Some v => Some v
       | None => Task.priority task
       end
  /\ Task.status (apply_update data now task)
     = match UpdateTask.status data with
       | Some v => v
       | None => Task.status task
       end
  /\ Task.created_at (apply_update data now task) = Task.created_at task
  /\ Task.completed_at (apply_update data now task)
     = (if enters_completed data task then Some now
        else Task.completed_at task).
Proof.
  destruct data as [i n d tg du p s].
  destruct task as [ti tn td tt tdu tp ts tc tk].
  unfold apply_update, enters_completed.
  cbn [UpdateTask.name UpdateTask.desc UpdateTask.tags UpdateTask.due_date
       UpdateTask.priority UpdateTask.status].
  destruct n, d, tg, du, p, s as [v|];
    cbv beta iota zeta delta
        [assign_if_given assign_status set_name set_desc set_tags
         set_due_date set_priority set_status set_completed_at Task.id
         Task.name Task.desc Task.tags Task.due_date Task.priority
         Task.status Task.created_at Task.completed_at];
    try destruct (String.eqb v "completed"
                  && negb (String.eqb ts "completed"))%bool;
    repeat split; reflexivity.
Qed.

(** C8: an update of an existing task applies only the fields that the
    request carries.  Whatever the request, the task returned and persisted
    has, for each of [name], [desc], [tags], [due_date], [priority] and
    [status], the request's value where the request gives one and the
    task's former value where it gives none; [id] and [created_at] are the
    former ones, and [completed_at] changes only when the status turns to
    ["completed"].  The other tasks of the store are not changed.  In
    particular a request that carries only the identifier and a priority
    yields the former task with that priority, every other field as
    before. *)
Theorem update_task_sparse :
  forall (data : UpdateTask.t) (now : string) (w : World) (task : Task.t),
    get_task (UpdateTask.id data) w = Some task ->
    let w' := snd (update_task data now w) in
    exists task',
      fst (update_task data now w) = Ok task'
      /\ get_task (UpdateTask.id data) w' = Some task'
      /\ Task.id task' = Task.id task
      /\ Task.name task'
         = match UpdateTask.name data with
           | Some v => v
           | None => Task.name task
           end
      /\ Task.desc task'
         = match UpdateTask.desc data with
           | Some v => Some v
           | None => Task.desc task
           end
      /\ Task.tags task'
         = match UpdateTask.tags data with
           | Some v => Some v
           | None => Task.tags task
           end
      /\ Task.due_date task'
         = match UpdateTask.due_date data with
           | Some v => Some v
           | None => Task.due_date task
           end
      /\ Task.priority task'
         = match UpdateTask.priority data with
           | Some v => Some v
           | None => Task.priority task
           end
      /\ Task.status task'
         = match UpdateTask.status data with
           | Some v => v
           | None => Task.status task
           end
      /\ Task.created_at task' = Task.created_at task
      /\ Task.completed_at task'
         = (if enters_completed data task then Some now
            else Task.completed_at task)
      /\ (forall t, In t (load_tasks w') -> t = task' \/ In t (load_tasks w))
      /\ List.length (load_tasks w') = List.length (load_tasks w)
      /\ (forall p : string,
             data = priority_only (UpdateTask.id data) p ->
             task'
             = Task.mk (Task.id task) (Task.name task) (Task.desc task)
                       (Task.tags task) (Task.due_date task) (Some p)
                       (Task.status task) (Task.created_at task)
                       (Task.completed_at task)).
Proof.
  intros data now w task H w'.
  destruct (update_task_found data now w task H) as [E1 E2].
  destruct (apply_update_fields data now task)
    as (F1 & F2 & F3 & F4 & F5 & F6 & F7 & F8 & F9).
  exists (apply_update data now task). subst w'.
  split; [now rewrite E1|]. split; [exact E2|].
  do 9 (split; [assumption|]).
  rewrite E1. cbn [snd]. rewrite load_save.
  split; [|split].
  - intros t Ht. unfold get_task in H.
    destruct (update_first_others _ _ _ _ H t Ht) as [->|Hin]; auto.
  - clear. induction (load_tasks w) as [|x xs IH]; simpl; [reflexivity|].
    destruct (Task.id x =? UpdateTask.id data); simpl; congruence.
  - intros p Hp.
    destruct (apply_update data now task)
      as [ti tn td tt tdu tp ts tc tk].
    cbn [Task.id Task.name Task.desc Task.tags Task.due_date Task.priority
         Task.status Task.created_at Task.completed_at] in *.
    rewrite Hp in F2, F3, F4, F5, F6, F7, F9.
    unfold enters_completed in F9.
    cbn [priority_only UpdateTask.name UpdateTask.desc UpdateTask.tags
         UpdateTask.due_date UpdateTask.priority UpdateTask.status]
      in F2, F3, F4, F5, F6, F7, F9.
    congruence.
Qed.

Lemma update_task_sparse_witness :
  get_task (UpdateTask.id (priority_only 1 "low")) sample_world
  = Some sample_task
  /\ fst (update_task (priority_only 1 "low") "2024-06-12T18:00:00"
                      sample_world)
     = Ok (Task.mk 1 "Ship report" None None (Some "2024-06-11"%string)
                   (Some "low"%string) "active" "2024-06-10T09:00:00" None).
Proof.
  split; [reflexivity|].
  destruct (update_task_sparse (priority_only 1 "low") "2024-06-12T18:00:00"
                               sample_world sample_task eq_refl)
    as (task' & E & _ & _ & _ & _ & _ & _ & _ & _ & _ & _ & _ & _ & P).
  rewrite E. f_equal. exact (P "low"%string eq_refl).
Defined.

(** * Properties of the query engine *)

Section MonadFacts.
Context {A B : Type}.

Lemma filterM_incl (p : A -> result bool) (l l' : list A) :
  filterM p l = Ok l' -> incl l' l.
Proof.
  revert l'. induction l as [|x xs IH]; simpl; intros l' H.
  - injection H as <-. intros y [].
  - destruct (p x) as [b|e]; simpl in H; [|discriminate].
    destruct (filterM p xs) as [r|e]; simpl in H; [|discriminate].
    injection H as <-. specialize (IH r eq_refl).
    destruct b; intros y Hy.
    + destruct Hy as [<-|Hy]; [now left|right; now apply IH].
    + right. now apply IH.
Qed.

Lemma filterM_pure (p : A -> result bool) (q : A -> bool) (l : list A) :
  (forall x, In x l -> p x = Ok (q x)) -> filterM p l = Ok (filter q l).
Proof.
  induction l as [|x xs IH]; simpl; intros H; [reflexivity|].
  rewrite (H x (or_introl eq_refl)). simpl.
  rewrite IH by (intros y Hy; apply H; now right). reflexivity.
Qed.

Lemma mapM_length (f : A -> result B) (l : list A) (r : list B) :
  mapM f l = Ok r -> List.length r = List.length l.
Proof.
  revert r. induction l as [|x xs IH]; simpl; intros r H.
  - now injection H as <-.
  - destruct (f x) as [y|e]; simpl in H; [|discriminate].
    destruct (mapM f xs) as [ys|e]; simpl in H; [|discriminate].
    injection H as <-. simpl. f_equal. now apply IH.
Qed.

Lemma mapM_total (f : A -> result B) (l : list A) :
  (forall x, In x l -> exists y, f x = Ok y) -> exists r, mapM f l = Ok r.
Proof.
  induction l as [|x xs IH]; simpl; intros H; [now eexists|].
  destruct (H x (or_introl eq_refl)) as [y ->].
  destruct IH as [r ->]; [intros z Hz; apply H; now right|].
  now eexists.
Qed.

(** When every exception of [f] is [e] and [f] raises on some element,
    mapping [f] over the list raises [e]. *)
Lemma mapM_raise (f : A -> result B) (e : exn) (l : list A) (x : A) :
  (forall z e', f z = Raise e' -> e' = e) ->
  In x l -> f x = Raise e -> mapM f l = Raise e.
Proof.
  intros Honly.
  induction l as [|y ys IH]; simpl; intros Hin Hx; [contradiction|].
  destruct (f y) as [v|e'] eqn:Ey; simpl.
  - destruct Hin as [->|Hin]; [congruence|].
    now rewrite IH.
  - now rewrite (Honly y e' Ey).
Qed.

End MonadFacts.

Section SortFacts.
Context {K A : Type} (ltb : K -> K -> bool).

Lemma insert_by_perm (x : K * A) (l : list (K * A)) :
  Permutation (insert_by ltb x l) (x :: l).
Proof.
  induction l as [|y ys IH]; simpl; [reflexivity|].
  destruct (ltb (fst y) (fst x)); [|reflexivity].
  rewrite IH. apply perm_swap.
Qed.

Lemma stable_sort_perm (l : list (K * A)) : Permutation (stable_sort ltb l) l.
Proof.
  induction l as [|x xs IH]; simpl; [reflexivity|].
  rewrite insert_by_perm. now constructor.
Qed.

Lemma map_snd_combine (ks : list K) (l : list A) :
  List.length ks = List.length l -> map snd (combine ks l) = l.
Proof.
  revert ks. induction l as [|x xs IH]; intros [|k ks] H; simpl in *;
    try reflexivity; try discriminate.
  f_equal. apply IH. now injection H.
Qed.

End SortFacts.

Lemma sort_by_key_perm {K : Type} (ltb : K -> K -> bool)
  (key : Task.t -> result K) (tasks sorted : list Task.t) :
  sort_by_key ltb key tasks = Ok sorted -> Permutation sorted tasks.
Proof.
  unfold sort_by_key. destruct (mapM key tasks) as [keys|e] eqn:E; simpl;
    [|discriminate].
  intros H. injection H as <-.
  rewrite (Permutation_map snd (stable_sort_perm ltb (combine keys tasks))).
  rewrite map_snd_combine; [reflexivity|]. now apply mapM_length in E.
Qed.

Lemma sort_by_key_total {K : Type} (ltb : K -> K -> bool)
  (key : Task.t -> result K) (tasks : list Task.t) :
  (forall t, In t tasks -> exists k, key t = Ok k) ->
  exists sorted, sort_by_key ltb key tasks = Ok sorted.
Proof.
  intros H. unfold sort_by_key.
  destruct (mapM_total key tasks H) as [keys ->]. simpl. now eexists.
Qed.

Lemma sort_tasks_perm (orderby : OrderBy) (tasks sorted : list Task.t) :
  sort_tasks orderby tasks = Ok sorted -> Permutation sorted tasks.
Proof. destruct orderby; apply sort_by_key_perm. Qed.

Lemma slice_to_incl {A : Type} (l : list A) (n : Z) : incl (slice_to l n) l.
Proof.
  unfold slice_to. intros x Hx.
  destruct (0 <=? n);
    match type of Hx with
    | In _ (firstn ?k _) => rewrite <- (firstn_skipn k l)
    end; apply in_or_app; now left.
Qed.

Lemma basic_filters_status (filters : ListTasks.t) (tasks : list Task.t)
  (t : Task.t) :
  In t (basic_filters filters tasks) ->
  In t tasks
  /\ Task.status t = status_or_active (ListTasks.status filters).
Proof.
  unfold basic_filters.
  set (s := status_or_active (ListTasks.status filters)).
  set (l0 := filter (fun t => String.eqb (Task.status t) s) tasks).
  set (l1 := if truthy_str (ListTasks.priority filters) then _ else l0).
  set (l2 := match ListTasks.tags filters with
             | Some (x :: xs) => _
             | _ => l1
             end).
  intros H.
  assert (H2 : In t l2).
  { destruct (ListTasks.keyword filters) as [k|]; [|exact H].
    destruct (String.eqb k EmptyString); [exact H|].
    apply filter_In in H. tauto. }
  assert (H1 : In t l1).
  { subst l2. destruct (ListTasks.tags filters) as [[|x xs]|]; try exact H2.
    apply filter_In in H2. tauto. }
  assert (H0 : In t l0).
  { subst l1. destruct (truthy_str (ListTasks.priority filters)); [|exact H1].
    apply filter_In in H1. tauto. }
  subst l0. apply filter_In in H0 as [Hin Hs]. split; [exact Hin|].
  now apply String.eqb_eq in Hs.
Qed.

Lemma bind_ok {A B : Type} (m : result A) (k : A -> result B) (r : B) :
  bind m k = Ok r -> exists a, m = Ok a /\ k a = Ok r.
Proof. destruct m as [a|e]; simpl; intros H; [now exists a|discriminate]. Qed.

Ltac bind_inv H :=
  repeat (let a := fresh "v" in
          let E := fresh "E" in
          apply bind_ok in H as (a & E & H)).

Lemma range_filter_incl (range : option Range) (today : date)
  (tasks kept : list Task.t) :
  range_filter range today tasks = Ok kept -> incl kept tasks.
Proof.
  assert (Hl : incl (filter (fun t => truthy_str (Task.due_date t)) tasks)
                    tasks)
    by (intros x Hx; apply filter_In in Hx; tauto).
  destruct range as [[| | | |]|]; cbv beta iota delta [range_filter];
    intros H.
  - now injection H as <-.
  - apply filterM_incl in H. now apply incl_tran with (2 := Hl).
  - bind_inv H. apply filterM_incl in H. now apply incl_tran with (2 := Hl).
  - bind_inv H. apply filterM_incl in H. now apply incl_tran with (2 := Hl).
  - bind_inv H. apply filterM_incl in H. now apply incl_tran with (2 := Hl).
  - now injection H as <-.
Qed.

(** [list_tasks] is the sorted matches cut at the limit. *)
Lemma list_tasks_limit (filters : ListTasks.t) (today : date) (w : World) :
  list_tasks filters today w
  = (tasks <- sorted_matches filters today w ;;
     Ok (slice_to tasks (limit_or_10 (ListTasks.limit filters)))).
Proof.
  unfold list_tasks, sorted_matches.
  destruct (range_filter _ _ _); reflexivity.
Qed.

(** Whatever [list_tasks] returns passed the basic filters. *)
Lemma list_tasks_incl (filters : ListTasks.t) (today : date) (w : World)
  (l : list Task.t) :
  list_tasks filters today w = Ok l ->
  incl l (basic_filters filters (load_tasks w)).
Proof.
  unfold list_tasks.
  destruct (range_filter _ _ _) as [kept|] eqn:Er; simpl; [|discriminate].
  destruct (sort_tasks _ _) as [sorted|] eqn:Es; simpl; [|discriminate].
  intros H. injection H as <-.
  apply incl_tran with sorted; [apply slice_to_incl|].
  apply incl_tran with kept; [|now apply range_filter_incl in Er].
  intros x Hx. apply sort_tasks_perm in Es.
  now apply (Permutation_in _ Es).
Qed.

(** ** Calendar arithmetic *)

Lemma days_in_month_bounds (y m : Z) : 28 <= days_in_month y m <= 31.
Proof.
  unfold days_in_month.
  destruct (m =? 2); [destruct (is_leap y); lia|].
  destruct ((m =? 4) || (m =? 6) || (m =? 9) || (m =? 11))%bool; lia.
Qed.

Lemma valid_date_fields (d : date) :
  valid_date d = true ->
  1 <= year d <= 9999 /\ 1 <= month d <= 12
  /\ 1 <= day d <= days_in_month (year d) (month d).
Proof.
  unfold valid_date, MINYEAR, MAXYEAR. intros H.
  repeat (apply andb_prop in H as [H ?]).
  repeat match goal with
         | E : (_ <=? _) = true |- _ => apply Z.leb_le in E
         end.
  lia.
Qed.

Lemma date_new_ok (y m d : Z) :
  1 <= y <= 9999 -> 1 <= m <= 12 -> 1 <= d <= days_in_month y m ->
  date_new y m d = Ok (mkdate y m d).
Proof.
  intros Hy Hm Hd. unfold date_new, valid_date, MINYEAR, MAXYEAR.
  cbn [year month day].
  repeat match goal with
         | |- context [?a <=? ?b] =>
             rewrite (proj2 (Z.leb_le a b)) by lia
         end.
  reflexivity.
Qed.

(** One more day on the closed form, while the step stays below 28. *)
Lemma next_day_add_small (d : date) (n : Z) :
  1 <= day d <= days_in_month (year d) (month d) ->
  0 <= n < 28 ->
  next_day (add_small d n) = add_small d (n + 1).
Proof.
  intros Hd Hn.
  pose proof (days_in_month_bounds (year d) (month d)) as Hb.
  pose proof (days_in_month_bounds (year d) (month d + 1)) as Hb1.
  pose proof (days_in_month_bounds (year d + 1) 1) as Hb2.
  unfold add_small.
  destruct (Z.leb_spec (day d + n) (days_in_month (year d) (month d)))
    as [H1|H1].
  - unfold next_day. cbn [year month day].
    destruct (Z.ltb_spec (day d + n) (days_in_month (year d) (month d)))
      as [H2|H2].
    + rewrite (proj2 (Z.leb_le _ _)) by lia. f_equal. lia.
    + rewrite (proj2 (Z.leb_gt _ _)) by lia.
      destruct (month d <? 12); f_equal; lia.
  - rewrite (proj2 (Z.leb_gt _ _)) by lia.
    destruct (month d <? 12); unfold next_day; cbn [year month day].
    + rewrite (proj2 (Z.ltb_lt _ _)) by lia. f_equal. lia.
    + rewrite (proj2 (Z.ltb_lt _ _)) by lia. f_equal. lia.
Qed.

Lemma iter_next_day_small (n : nat) (d : date) :
  1 <= day d <= days_in_month (year d) (month d) ->
  (n <= 28)%nat ->
  Nat.iter n next_day d = add_small d (Z.of_nat n).
Proof.
  intros Hd. induction n as [|n IH]; intros Hn.
  - change (Nat.iter 0 next_day d) with d.
    unfold add_small. cbn [Z.of_nat]. rewrite Z.add_0_r.
    rewrite (proj2 (Z.leb_le _ _)) by lia. now destruct d.
  - rewrite Nat.iter_succ, IH by lia.
    rewrite next_day_add_small by lia. f_equal. lia.
Qed.

Lemma shift_small (d : date) (n : Z) :
  1 <= day d <= days_in_month (year d) (month d) ->
  0 <= n <= 28 ->
  shift d n = add_small d n.
Proof.
  intros Hd Hn. unfold shift. rewrite (proj2 (Z.leb_le 0 n)) by lia.
  rewrite iter_next_day_small by (try exact Hd; lia).
  f_equal. lia.
Qed.

Lemma add_small_year (d : date) (n : Z) :
  year d <= year (add_small d n) <= year d + 1.
Proof.
  unfold add_small.
  destruct (_ <=? _); [cbn; lia|]. destruct (_ <? _); cbn; lia.
Qed.

Lemma date_add_small (d : date) (n : Z) :
  valid_date d = true -> year d < MAXYEAR -> 0 <= n <= 28 ->
  date_add d n = Ok (shift d n).
Proof.
  intros Hv Hy Hn. apply valid_date_fields in Hv as (Hyr & Hm & Hd).
  unfold date_add. cbv zeta.
  pose proof (add_small_year d n) as Hb.
  rewrite <- (shift_small d n Hd Hn) in Hb.
  unfold MINYEAR, MAXYEAR in *.
  rewrite (proj2 (Z.leb_le 1 _)), (proj2 (Z.leb_le _ 9999)) by lia.
  reflexivity.
Qed.

(** Thirty-two days after the first of a month fall in the next month. *)
Lemma shift_32_from_first (d : date) :
  1 <= month d <= 12 -> day d = 1 ->
  year (shift d 32) = year (first_of_next_month d)
  /\ month (shift d 32) = month (first_of_next_month d).
Proof.
  destruct d as [y m dd]. cbn [year month day]. intros Hm ->.
  pose proof (days_in_month_bounds y m) as Hb.
  pose proof (days_in_month_bounds y (m + 1)) as Hb1.
  pose proof (days_in_month_bounds (y + 1) 1) as Hb2.
  unfold shift. change (0 <=? 32) with true. cbv iota.
  change (Z.to_nat 32) with (4 + 28)%nat. rewrite Nat.iter_add.
  rewrite (iter_next_day_small 28) by (cbn [year month day]; lia).
  change (Z.of_nat 28) with 28.
  unfold first_of_next_month, add_small. cbn [year month day].
  destruct (Z.leb_spec (1 + 28) (days_in_month y m)) as [H|H].
  - rewrite iter_next_day_small by (cbn [year month day]; lia).
    change (Z.of_nat 4) with 4. unfold add_small. cbn [year month day].
    rewrite (proj2 (Z.leb_gt _ _)) by lia.
    destruct (m <? 12); cbn [year month]; split; reflexivity.
  - destruct (m <? 12).
    + rewrite iter_next_day_small by (cbn [year month day]; lia).
      change (Z.of_nat 4) with 4. unfold add_small. cbn [year month day].
      rewrite (proj2 (Z.leb_le _ _)) by lia. split; reflexivity.
    + rewrite iter_next_day_small by (cbn [year month day]; lia).
      change (Z.of_nat 4) with 4. unfold add_small. cbn [year month day].
      rewrite (proj2 (Z.leb_le _ _)) by lia. split; reflexivity.
Qed.

Lemma prev_day_first_of_next_month (d : date) :
  1 <= month d <= 12 ->
  shift (first_of_next_month d) (-1) = last_day_of_month d.
Proof.
  intros Hm. unfold shift. change (0 <=? -1) with false. cbv iota.
  change (Z.to_nat (- -1)) with 1%nat.
  change (Nat.iter 1 prev_day (first_of_next_month d))
    with (prev_day (first_of_next_month d)).
  unfold first_of_next_month, last_day_of_month, prev_day.
  destruct (Z.ltb_spec (month d) 12) as [H|H]; cbn [year month day].
  - change (1 <? 1) with false. cbv iota.
    rewrite (proj2 (Z.ltb_lt 1 (month d + 1))) by lia.
    now rewrite Z.add_simpl_r.
  - change (1 <? 1) with false. cbv iota.
    assert (E : month d = 12) by lia. rewrite E, Z.add_simpl_r.
    reflexivity.
Qed.

(** The bounds of the month bucket, as the source computes them. *)
Lemma month_end_computation (today : date) :
  valid_date today = true -> year today < MAXYEAR ->
  (first <- replace_day today 1 ;;
   later <- date_add first 32 ;;
   next_first <- replace_day later 1 ;;
   date_add next_first (-1))
  = Ok (last_day_of_month today).
Proof.
  intros Hv Hy. apply valid_date_fields in Hv as (Hyr & Hm & Hd).
  unfold MAXYEAR in Hy.
  pose proof (days_in_month_bounds (year today) (month today)) as Hb.
  unfold replace_day at 1. rewrite date_new_ok by lia. cbn [bind].
  set (first := mkdate (year today) (month today) 1).
  destruct (shift_32_from_first first) as [Ey Em];
    [cbn; lia|reflexivity|].
  assert (Hn : first_of_next_month first = first_of_next_month today)
    by reflexivity.
  rewrite Hn in Ey, Em.
  assert (Hyn : 1 <= year (first_of_next_month today) <= 9999
                /\ 1 <= month (first_of_next_month today) <= 12).
  { unfold first_of_next_month.
    destruct (Z.ltb_spec (month today) 12); cbn [year month]; lia. }
  unfold date_add at 1. cbv zeta. rewrite Ey.
  unfold MINYEAR, MAXYEAR.
  rewrite (proj2 (Z.leb_le 1 _)), (proj2 (Z.leb_le _ 9999)) by lia.
  cbn [andb bind]. unfold replace_day. rewrite Ey, Em.
  pose proof (days_in_month_bounds (year (first_of_next_month today))
                                   (month (first_of_next_month today))).
  rewrite date_new_ok by lia. cbn [bind].
  assert (Hf : mkdate (year (first_of_next_month today))
                      (month (first_of_next_month today)) 1
               = first_of_next_month today).
  { unfold first_of_next_month. now destruct (month today <? 12). }
  rewrite Hf. unfold date_add. cbv zeta.
  rewrite prev_day_first_of_next_month by lia.
  unfold last_day_of_month, MINYEAR, MAXYEAR. cbn [year].
  rewrite (proj2 (Z.leb_le 1 _)), (proj2 (Z.leb_le _ 9999)) by lia.
  reflexivity.
Qed.

(** The start of the year bucket, as the source computes it. *)
Lemma year_start_computation (today : date) :
  valid_date today = true -> year today < MAXYEAR ->
  (first <- replace_day today 1 ;;
   later <- date_add first 32 ;;
   replace_day later 1)
  = Ok (first_of_next_month today).
Proof.
  intros Hv Hy. apply valid_date_fields in Hv as (Hyr & Hm & Hd).
  unfold MAXYEAR in Hy.
  pose proof (days_in_month_bounds (year today) (month today)) as Hb.
  unfold replace_day at 1. rewrite date_new_ok by lia. cbn [bind].
  set (first := mkdate (year today) (month today) 1).
  destruct (shift_32_from_first first) as [Ey Em];
    [cbn; lia|reflexivity|].
  assert (Hn : first_of_next_month first = first_of_next_month today)
    by reflexivity.
  rewrite Hn in Ey, Em.
  assert (Hyn : 1 <= year (first_of_next_month today) <= 9999
                /\ 1 <= month (first_of_next_month today) <= 12).
  { unfold first_of_next_month.
    destruct (Z.ltb_spec (month today) 12); cbn [year month]; lia. }
  unfold date_add at 1. cbv zeta. rewrite Ey.
  unfold MINYEAR, MAXYEAR.
  rewrite (proj2 (Z.leb_le 1 _)), (proj2 (Z.leb_le _ 9999)) by lia.
  cbn [andb bind]. unfold replace_day. rewrite Ey, Em.
  pose proof (days_in_month_bounds (year (first_of_next_month today))
                                   (month (first_of_next_month today))).
  rewrite date_new_ok by lia.
  unfold first_of_next_month. now destruct (month today <? 12).
Qed.

(** ** The order on dates *)

Lemma date_ltb_lex (a b : date) :
  date_ltb a b = true <->
  year a < year b
  \/ (year a = year b
      /\ (month a < month b \/ (month a = month b /\ day a < day b))).
Proof.
  unfold date_ltb.
  destruct (Z.eqb_spec (year a) (year b)) as [Ey|Ey].
  - destruct (Z.eqb_spec (month a) (month b)) as [Em|Em].
    + rewrite Z.ltb_lt. lia.
    + rewrite Z.ltb_lt. lia.
  - rewrite Z.ltb_lt. lia.
Qed.

Lemma date_ltb_next_day (d : date) : date_ltb d (next_day d) = true.
Proof.
  apply date_ltb_lex. unfold next_day.
  destruct (_ <? _); [cbn; lia|]. destruct (_ <? _); cbn; lia.
Qed.

(** Nothing lies both up to a day and from the next day on. *)
Lemma date_window_gap (d x : date) :
  date_leb x d = true -> date_leb (next_day d) x = false.
Proof.
  unfold date_leb. intros H. apply negb_true_iff in H.
  apply negb_false_iff. pose proof (date_ltb_next_day d) as Hn.
  apply date_ltb_lex. apply date_ltb_lex in Hn.
  assert (Hx : ~ (year d < year x
                  \/ (year d = year x
                      /\ (month d < month x
                          \/ (month d = month x /\ day d < day x))))).
  { intros C. apply date_ltb_lex in C. congruence. }
  lia.
Qed.

Lemma date_eqb_eq (a b : date) : date_eqb a b = true <-> a = b.
Proof.
  unfold date_eqb. destruct a as [y m d], b as [y' m' d'].
  cbn [year month day]. rewrite !andb_true_iff, !Z.eqb_eq.
  split; [intros [[-> ->] ->]; reflexivity|].
  intros H. injection H as -> -> ->. auto.
Qed.

(** ** The range filter, bucket by bucket *)

Lemma due_dates_parse_incl (l l' : list Task.t) :
  incl l' l -> due_dates_parse l -> due_dates_parse l'.
Proof. intros Hi Hp t Ht. apply Hp. now apply Hi. Qed.

Lemma priorities_known_incl (l l' : list Task.t) :
  incl l' l -> priorities_known l -> priorities_known l'.
Proof. intros Hi Hp t Ht. apply Hp. now apply Hi. Qed.

Lemma basic_filters_incl (filters : ListTasks.t) (tasks : list Task.t) :
  incl (basic_filters filters tasks) tasks.
Proof. intros t Ht. now apply basic_filters_status in Ht. Qed.

Lemma filterM_due_within (lo hi : date) (tasks : list Task.t) :
  due_dates_parse tasks ->
  filterM (due_within lo hi)
          (filter (fun t => truthy_str (Task.due_date t)) tasks)
  = Ok (filter (due_between lo hi) tasks).
Proof.
  intros Hp. rewrite (filterM_pure _ (due_between lo hi)).
  - f_equal. apply filter_absorb. intros x Hx. unfold due_between in Hx.
    apply andb_prop in Hx. tauto.
  - intros x Hx. apply filter_In in Hx as [Hin Ht].
    destruct (Hp x Hin Ht) as [d Ed].
    unfold due_within, due_between. rewrite Ed, Ht. reflexivity.
Qed.

Lemma range_filter_day (today : date) (tasks : list Task.t) :
  due_dates_parse tasks ->
  range_filter (Some RDay) today tasks
  = Ok (filter (due_exactly today) tasks).
Proof.
  intros Hp. cbv beta iota delta [range_filter].
  rewrite (filterM_pure _ (due_exactly today)).
  - f_equal. apply filter_absorb. intros x Hx. unfold due_exactly in Hx.
    apply andb_prop in Hx. tauto.
  - intros x Hx. apply filter_In in Hx as [Hin Ht].
    destruct (Hp x Hin Ht) as [d Ed].
    unfold due_exactly. rewrite Ed, Ht. reflexivity.
Qed.

Lemma range_filter_week (today : date) (tasks : list Task.t) :
  valid_date today = true -> year today < MAXYEAR ->
  due_dates_parse tasks ->
  range_filter (Some RWeek) today tasks
  = Ok (filter (due_between (shift today 1) (shift today 7)) tasks).
Proof.
  intros Hv Hy Hp. cbv beta iota delta [range_filter].
  rewrite (date_add_small today 1) by (try assumption; lia). cbn [bind].
  rewrite (date_add_small today 7) by (try assumption; lia). cbn [bind].
  now apply filterM_due_within.
Qed.

Lemma range_filter_month (today : date) (tasks : list Task.t) :
  valid_date today = true -> year today < MAXYEAR ->
  due_dates_parse tasks ->
  range_filter (Some RMonth) today tasks
  = Ok (filter (due_between (shift today 8) (last_day_of_month today))
               tasks).
Proof.
  intros Hv Hy Hp. cbv beta iota delta [range_filter].
  rewrite (date_add_small today 8) by (try assumption; lia). cbn [bind].
  pose proof (month_end_computation today Hv Hy) as H. bind_inv H.
  rewrite E. cbn [bind]. rewrite E0. cbn [bind]. rewrite E1. cbn [bind].
  rewrite H. cbn [bind]. now apply filterM_due_within.
Qed.

Lemma range_filter_year (today : date) (tasks : list Task.t) :
  valid_date today = true -> year today < MAXYEAR ->
  due_dates_parse tasks ->
  range_filter (Some RYear) today tasks
  = Ok (filter (due_between (first_of_next_month today)
                            (last_day_of_year today)) tasks).
Proof.
  intros Hv Hy Hp. cbv beta iota delta [range_filter].
  pose proof (year_start_computation today Hv Hy) as H. bind_inv H.
  rewrite E. cbn [bind]. rewrite E0. cbn [bind]. rewrite H. cbn [bind].
  apply valid_date_fields in Hv as (Hyr & Hm & Hd).
  unfold replace_month_day. rewrite date_new_ok by (cbn; lia). cbn [bind].
  now apply filterM_due_within.
Qed.

Lemma range_filter_total (range : option Range) (today : date)
  (tasks : list Task.t) :
  valid_date today = true -> year today < MAXYEAR ->
  due_dates_parse tasks ->
  exists kept, range_filter range today tasks = Ok kept.
Proof.
  intros Hv Hy Hp. destruct range as [[| | | |]|].
  - now eexists.
  - rewrite range_filter_day by assumption. now eexists.
  - rewrite range_filter_week by assumption. now eexists.
  - rewrite range_filter_month by assumption. now eexists.
  - rewrite range_filter_year by assumption. now eexists.
  - now eexists.
Qed.

Lemma sort_tasks_total (orderby : OrderBy) (tasks : list Task.t) :
  due_dates_parse tasks -> priorities_known tasks ->
  exists sorted, sort_tasks orderby tasks = Ok sorted.
Proof.
  intros Hd Hp. destruct orderby; apply sort_by_key_total.
  - intros t Ht. unfold due_date_key.
    destruct (truthy_str (Task.due_date t)) eqn:E; [|now eexists].
    destruct (Hd t Ht E) as [d ->]. now eexists.
  - exact Hp.
  - intros t _. now eexists.
Qed.

Lemma list_tasks_stages (filters : ListTasks.t) (today : date) (w : World) :
  list_tasks filters today w
  = (kept <- range_filter (ListTasks.range filters) today
                          (basic_filters filters (load_tasks w)) ;;
     sort_and_limit filters kept).
Proof. reflexivity. Qed.

(** On a store whose due dates and priorities are well formed, and with a
    clock before the last year of the calendar, [list_tasks] returns. *)
Lemma list_tasks_total (filters : ListTasks.t) (today : date) (w : World) :
  valid_date today = true -> year today < MAXYEAR ->
  due_dates_parse (load_tasks w) -> priorities_known (load_tasks w) ->
  exists l, list_tasks filters today w = Ok l.
Proof.
  intros Hv Hy Hd Hp. rewrite list_tasks_stages.
  pose proof (basic_filters_incl filters (load_tasks w)) as Hi.
  destruct (range_filter_total (ListTasks.range filters) today
              (basic_filters filters (load_tasks w)) Hv Hy
              (due_dates_parse_incl _ _ Hi Hd)) as [kept Ek].
  rewrite Ek. cbn [bind]. apply range_filter_incl in Ek.
  assert (Hk : incl kept (load_tasks w)) by (eapply incl_tran; eassumption).
  destruct (sort_tasks_total (ListTasks.orderby filters) kept
              (due_dates_parse_incl _ _ Hk Hd)
              (priorities_known_incl _ _ Hk Hp)) as [sorted Es].
  unfold sort_and_limit. rewrite Es. cbn [bind]. now eexists.
Qed.

(** ** Default status filter *)

(** C7: with no status in the query, every task [list_tasks] returns is
    a task of the store whose status is ["active"], whatever other tasks
    the store holds; and on a well-formed store the call does return. *)
Theorem list_tasks_default_status :
  forall (filters : ListTasks.t) (today : date) (w : World),
    ListTasks.status filters = None ->
    (forall l, list_tasks filters today w = Ok l ->
               Forall (fun t => Task.status t = "active"%string) l
               /\ incl l (load_tasks w))
    /\ (valid_date today = true -> year today < MAXYEAR ->
        due_dates_parse (load_tasks w) -> priorities_known (load_tasks w) ->
        exists l, list_tasks filters today w = Ok l).
Proof.
  intros filters today w Hs. split.
  - intros l H. apply list_tasks_incl in H. split.
    + apply Forall_forall. intros t Ht. apply H in Ht.
      apply basic_filters_status in Ht as [_ Ht]. now rewrite Hs in Ht.
    + eapply incl_tran; [exact H|apply basic_filters_incl].
  - apply list_tasks_total.
Qed.

Lemma list_tasks_default_status_witness :
  ListTasks.status (by_id None) = None
  /\ list_tasks (by_id None) june_10 mixed_world = Ok [bare 2 "active"]
  /\ Forall (fun t => Task.status t = "active"%string) [bare 2 "active"].
Proof.
  split; [reflexivity|]. split; [reflexivity|].
  apply (proj1 (list_tasks_default_status (by_id None) june_10 mixed_world
                                          eq_refl)
               [bare 2 "active"] eq_refl).
Defined.

(** ** Limit *)




(** ** Sorting by priority *)

Lemma priority_order_only_key_error (p : option string) (e : exn) :
  priority_order p = Raise e -> e = KeyError.
Proof.
  unfold priority_order. destruct p as [s|]; [|discriminate].
  repeat (destruct (String.eqb s _); [discriminate|]).
  intros H. now injection H.
Qed.

Lemma priority_order_unknown (s : string) :
  ~ In s priority_names -> priority_order (Some s) = Raise KeyError.
Proof.
  unfold priority_names, priority_order. intros H.
  repeat match goal with
         | |- context [String.eqb s ?k] =>
             destruct (String.eqb_spec s k) as [->|_];
             [exfalso; apply H; simpl; tauto|]
         end.
  reflexivity.
Qed.

(** C10: when the query orders by priority and a task that passed the
    filters carries a priority string other than ["high"], ["medium"],
    ["low"] and ["none"], [list_tasks] raises [KeyError]; such a task can
    be stored through the tool interface, whose creation schema accepts any
    priority string, and the listing then fails for every date. *)
Theorem list_tasks_priority_key_error :
  forall (filters : ListTasks.t) (today : date) (w : World)
         (kept : list Task.t) (t : Task.t) (s : string),
    ListTasks.orderby filters = ByPriority ->
    range_filter (ListTasks.range filters) today
                 (basic_filters filters (load_tasks w)) = Ok kept ->
    In t kept ->
    Task.priority t = Some s ->
    ~ In s priority_names ->
    list_tasks filters today w = Raise KeyError
    /\ (forall day, list_tasks by_priority day urgent_world = Raise KeyError).
Proof.
  intros filters today w kept t s Ho Hr Hin Hp Hs. split; [|reflexivity].
  rewrite list_tasks_stages, Hr. cbn [bind].
  unfold sort_and_limit. rewrite Ho. cbv beta iota delta [sort_tasks].
  unfold sort_by_key.
  rewrite (mapM_raise (fun t => priority_order (Task.priority t)) KeyError
                      kept t).
  - reflexivity.
  - intros z e. apply priority_order_only_key_error.
  - exact Hin.
  - rewrite Hp. now apply priority_order_unknown.
Qed.

Lemma list_tasks_priority_key_error_witness :
  ListTasks.orderby by_priority = ByPriority
  /\ ~ In "urgent"%string priority_names
  /\ list_tasks by_priority june_10 urgent_world = Raise KeyError.
Proof.
  assert (Hs : ~ In "urgent"%string priority_names).
  { intros H. simpl in H.
    repeat (destruct H as [H|H]; [discriminate|]). exact H. }
  split; [reflexivity|]. split; [exact Hs|].
  apply (proj1 (list_tasks_priority_key_error
                  by_priority june_10 urgent_world
                  (load_tasks urgent_world)
                  (Task.mk 1 "Call Bob" None None None (Some "urgent"%string)
                           "active" "2024-06-10T09:00:00" None)
                  "urgent" eq_refl eq_refl (or_introl eq_refl) eq_refl Hs)).
Defined.

(** ** Range buckets *)

Lemma shift_8_next (d : date) : shift d 8 = next_day (shift d 7).
Proof.
  unfold shift. change (0 <=? 8) with true. change (0 <=? 7) with true.
  cbv iota. change (Z.to_nat 8) with (S (Z.to_nat 7)).
  apply Nat.iter_succ.
Qed.

Lemma shift_1_next (d : date) : shift d 1 = next_day d.
Proof. reflexivity. Qed.

Lemma date_leb_refl (d : date) : date_leb d d = true.
Proof.
  unfold date_leb. apply negb_true_iff.
  destruct (date_ltb d d) eqn:E; [|reflexivity].
  apply date_ltb_lex in E. lia.
Qed.

(** Two windows that meet at consecutive days share no due date, and a
    window that starts the day after [a] does not hold [a]. *)
Lemma due_between_gap (lo a hi : date) (t : Task.t) :
  due_between lo a t = true -> due_between (next_day a) hi t = false.
Proof.
  unfold due_between.
  destruct (truthy_str (Task.due_date t)); [|discriminate].
  destruct (due_on t) as [d|]; [|discriminate].
  cbn [andb]. intros H. apply andb_prop in H as [_ H].
  now rewrite (date_window_gap _ _ H).
Qed.

Lemma due_between_not_exactly (a hi : date) (t : Task.t) :
  due_between (next_day a) hi t = true -> due_exactly a t = false.
Proof.
  unfold due_between, due_exactly.
  destruct (truthy_str (Task.due_date t)); [|reflexivity].
  destruct (due_on t) as [d|]; [|reflexivity].
  cbn [andb]. intros H. apply andb_prop in H as [H _].
  destruct (date_eqb d a) eqn:E; [|reflexivity].
  apply date_eqb_eq in E. subst d.
  now rewrite (date_window_gap a a (date_leb_refl a)) in H.
Qed.

(** C9: for a clock on a valid date before the year 9999, when the due
    dates of the tasks that pass the other filters read as calendar dates,
    a query with range [week] returns, sorted and cut at the limit, exactly
    those of these tasks that are due in [[today+1, today+7]]; with range
    [month], those due in [[today+8, last day of the current month]]; with
    range [day], those due today.  A due date in the week bucket is neither
    in the month bucket nor in the day bucket.  (With today = 2024-06-10
    this puts 2024-06-11 in [week], 2024-06-10 in [day] and 2024-06-18 in
    [month].) *)
Theorem week_and_month_buckets :
  forall (filters : ListTasks.t) (today : date) (w : World),
    valid_date today = true ->
    year today < MAXYEAR ->
    let base := basic_filters filters (load_tasks w) in
    due_dates_parse base ->
    (ListTasks.range filters = Some RWeek ->
     list_tasks filters today w
     = sort_and_limit filters
         (filter (due_between (shift today 1) (shift today 7)) base))
    /\ (ListTasks.range filters = Some RMonth ->
        list_tasks filters today w
        = sort_and_limit filters
            (filter (due_between (shift today 8) (last_day_of_month today))
                    base))
    /\ (ListTasks.range filters = Some RDay ->
        list_tasks filters today w
        = sort_and_limit filters (filter (due_exactly today) base))
    /\ (forall t,
          due_between (shift today 1) (shift today 7) t = true ->
          due_between (shift today 8) (last_day_of_month today) t = false
          /\ due_exactly today t = false).
Proof.
  intros filters today w Hv Hy base Hb.
  repeat split.
  - intros Hr. rewrite list_tasks_stages, Hr.
    fold base. now rewrite range_filter_week.
  - intros Hr. rewrite list_tasks_stages, Hr.
    fold base. now rewrite range_filter_month.
  - intros Hr. rewrite list_tasks_stages, Hr.
    fold base. now rewrite range_filter_day.
  - rewrite shift_8_next. now apply due_between_gap with (lo := shift today 1).
  - rewrite shift_1_next in H. now apply due_between_not_exactly in H.
Qed.

Lemma june_world_parses (filters : ListTasks.t) :
  due_dates_parse (basic_filters filters (load_tasks june_world)).
Proof.
  apply due_dates_parse_incl with (1 := basic_filters_incl _ _).
  intros t [<-|[<-|[<-|[]]]] _; eexists; reflexivity.
Defined.

Lemma week_and_month_buckets_witness :
  valid_date june_10 = true
  /\ year june_10 < MAXYEAR
  /\ list_tasks (in_range RWeek) june_10 june_world
     = Ok [due 2 "2024-06-11"]
  /\ list_tasks (in_range RMonth) june_10 june_world
     = Ok [due 3 "2024-06-18"]
  /\ list_tasks (in_range RDay) june_10 june_world
     = Ok [due 1 "2024-06-10"].
Proof.
  split; [reflexivity|]. split; [reflexivity|].
  split; [|split].
  - rewrite (proj1 (week_and_month_buckets
                      (in_range RWeek) june_10 june_world
                      eq_refl eq_refl (june_world_parses _)) eq_refl).
    reflexivity.
  - rewrite (proj1 (proj2 (week_and_month_buckets
                             (in_range RMonth) june_10 june_world
                             eq_refl eq_refl (june_world_parses _))) eq_refl).
    reflexivity.
  - rewrite (proj1 (proj2 (proj2 (week_and_month_buckets
                                    (in_range RDay) june_10 june_world
                                    eq_refl eq_refl (june_world_parses _))))
                   eq_refl).
    reflexivity.
Defined.

(** C3, as stated, fails: the year bucket starts on the first day of the
    next month, not after the current quarter.  On 2024-01-15 a task due
    2024-02-10 is returned, although it is before 2024-04-01. *)
Lemma year_bucket_starts_next_month :
  list_tasks (in_range RYear) january_15 february_world
  = Ok [due 1 "2024-02-10"]
  /\ first_after_quarter january_15 = mkdate 2024 4 1
  /\ due_between (first_after_quarter january_15)
                 (last_day_of_year january_15) (due 1 "2024-02-10")
     = false.
Proof. repeat split. Qed.

(** C3, amended: for a clock on a valid date before the year 9999, when
    the due dates of the tasks that pass the other filters read as calendar
    dates, a query with range [year] returns, sorted and cut at the limit,
    exactly those of these tasks that are due in the closed interval from
    the first day of the month after the current month to December 31 of
    the current year. *)
Theorem year_bucket :
  forall (filters : ListTasks.t) (today : date) (w : World),
    valid_date today = true ->
    year today < MAXYEAR ->
    due_dates_parse (basic_filters filters (load_tasks w)) ->
    ListTasks.range filters = Some RYear ->
    list_tasks filters today w
    = sort_and_limit filters
        (filter (due_between (first_of_next_month today)
                             (last_day_of_year today))
                (basic_filters filters (load_tasks w))).
Proof.
  intros filters today w Hv Hy Hp Hr.
  rewrite list_tasks_stages, Hr. now rewrite range_filter_year.
Qed.

Lemma february_world_parses (filters : ListTasks.t) :
  due_dates_parse (basic_filters filters (load_tasks february_world)).
Proof.
  apply due_dates_parse_incl with (1 := basic_filters_incl _ _).
  intros t [<-|[]] _; eexists; reflexivity.
Defined.

Lemma year_bucket_witness :
  valid_date january_15 = true
  /\ year january_15 < MAXYEAR
  /\ first_of_next_month january_15 = mkdate 2024 2 1
  /\ list_tasks (in_range RYear) january_15 february_world
     = Ok [due 1 "2024-02-10"].
Proof.
  split; [reflexivity|]. split; [reflexivity|]. split; [reflexivity|].
  rewrite (year_bucket (in_range RYear) january_15 february_world
                       eq_refl eq_refl (february_world_parses _) eq_refl).
  reflexivity.
Defined.

(** * Further properties of the store operations *)

Lemma find_app_last (p : Task.t -> bool) (l : list Task.t) (x : Task.t) :
  find p (l ++ [x])
  = match find p l with
    | Some y => Some y
    | None => if p x then Some x else None
    end.
Proof.
  induction l as [|y ys IH]; simpl; [reflexivity|].
  destruct (p y); [reflexivity|exact IH].
Qed.

Lemma find_none_fresh (i : Z) (l : list Task.t) :
  ~ In i (map Task.id l) -> find (fun t => Task.id t =? i) l = None.
Proof.
  induction l as [|y ys IH]; simpl; intros H; [reflexivity|].
  destruct (Z.eqb_spec (Task.id y) i) as [E|E]; [exfalso; auto|].
  apply IH. intros Hin. apply H. now right.
Qed.

Lemma find_filter_other (i j : Z) (l : list Task.t) :
  j <> i ->
  find (fun t => Task.id t =? j)
       (filter (fun t => negb (Task.id t =? i)) l)
  = find (fun t => Task.id t =? j) l.
Proof.
  intros Hne. induction l as [|y ys IH]; simpl; [reflexivity|].
  destruct (Z.eqb_spec (Task.id y) i) as [E|E]; simpl.
  - destruct (Z.eqb_spec (Task.id y) j) as [E'|E']; [congruence|exact IH].
  - destruct (Task.id y =? j); [reflexivity|exact IH].
Qed.

Lemma find_filter_same (i : Z) (l : list Task.t) :
  find (fun t => Task.id t =? i)
       (filter (fun t => negb (Task.id t =? i)) l) = None.
Proof.
  induction l as [|y ys IH]; simpl; [reflexivity|].
  destruct (Z.eqb_spec (Task.id y) i) as [E|E]; simpl; [exact IH|].
  destruct (Z.eqb_spec (Task.id y) i); [contradiction|exact IH].
Qed.

(** Whether or not it writes, [delete_task] leaves the filtered list. *)
Lemma delete_task_load (task_id : Z) (w : World) :
  load_tasks (snd (delete_task task_id w))
  = filter (fun t => negb (Task.id t =? task_id)) (load_tasks w).
Proof.
  unfold delete_task.
  destruct (Nat.eqb_spec
              (List.length (filter (fun t => negb (Task.id t =? task_id))
                                   (load_tasks w)))
              (List.length (load_tasks w))) as [E|E]; cbn [snd].
  - symmetry. now apply filter_same_length.
  - apply load_save.
Qed.

(** Creation followed by lookup: the task just created is found under its
    identifier, and every other identifier resolves as before. *)
Theorem create_then_get :
  forall (data : CreateTask.t) (now : string) (w : World) (j : Z),
    let task := fst (create_task data now w) in
    let w' := snd (create_task data now w) in
    get_task (Task.id task) w' = Some task
    /\ (j <> Task.id task -> get_task j w' = get_task j w).
Proof.
  intros data now w j task w'. subst task w'. unfold get_task.
  cbn [create_task fst snd Task.id]. rewrite load_save. split.
  - rewrite find_app_last, find_none_fresh.
    + cbn [Task.id]. now rewrite Z.eqb_refl.
    + intros H. apply next_id_above in H. lia.
  - intros Hne. rewrite find_app_last. cbn [Task.id].
    destruct (find _ (load_tasks w)); [reflexivity|].
    destruct (Z.eqb_spec (next_id w) j); [congruence|reflexivity].
Qed.

Lemma create_then_get_witness :
  2 <> Task.id (fst (create_task (plain "second") "2024-06-10T09:05:00"
                                 empty_world))
  /\ get_task 2 (snd (create_task (plain "second") "2024-06-10T09:05:00"
                                  empty_world))
     = get_task 2 empty_world.
Proof.
  split; [discriminate|].
  apply (create_then_get (plain "second") "2024-06-10T09:05:00"
                         empty_world 2).
  discriminate.
Defined.

(** Deletion followed by lookup: the deleted identifier is no longer found,
    every other identifier resolves as before, and deleting the same
    identifier again reports false and leaves the store alone. *)
Theorem delete_then_get :
  forall (task_id : Z) (w : World) (j : Z),
    let w' := snd (delete_task task_id w) in
    get_task task_id w' = None
    /\ (j <> task_id -> get_task j w' = get_task j w)
    /\ delete_task task_id w' = (false, w').
Proof.
  intros task_id w j w'. subst w'. unfold get_task.
  rewrite delete_task_load. split; [apply find_filter_same|].
  split; [now apply find_filter_other|].
  unfold delete_task at 1. rewrite delete_task_load.
  rewrite (filter_all _ (filter _ (load_tasks w))).
  - now rewrite Nat.eqb_refl.
  - intros t Ht. apply filter_In in Ht. tauto.
Qed.

Lemma delete_then_get_witness :
  2 <> 1
  /\ get_task 2 (snd (delete_task 1 (snd (run create_ops empty_world))))
     = get_task 2 (snd (run create_ops empty_world)).
Proof.
  split; [discriminate|].
  apply (delete_then_get 1 (snd (run create_ops empty_world)) 2).
  discriminate.
Defined.

(** An update of an identifier that no task has raises [ValueError] and
    leaves the store as it was, without a write; and this is the only way
    [update_task] fails. *)
Theorem update_task_unknown_id :
  forall (data : UpdateTask.t) (now : string) (w : World),
    (get_task (UpdateTask.id data) w = None ->
     update_task data now w = (Raise ValueError, w))
    /\ (forall e, fst (update_task data now w) = Raise e ->
                  get_task (UpdateTask.id data) w = None
                  /\ e = ValueError
                  /\ snd (update_task data now w) = w).
Proof.
  intros data now w. unfold get_task, update_task.
  destruct (find _ (load_tasks w)) as [t|]; cbn [fst snd].
  - split; [discriminate|]. intros e H. discriminate.
  - split; [reflexivity|]. intros e H. injection H as <-. auto.
Qed.

Lemma update_task_unknown_id_witness :
  get_task (UpdateTask.id finish_request) empty_world = None
  /\ update_task finish_request "2024-06-12T18:00:00" empty_world
     = (Raise ValueError, empty_world).
Proof.
  split; [reflexivity|].
  apply (proj1 (update_task_unknown_id finish_request "2024-06-12T18:00:00"
                                       empty_world)).
  reflexivity.
Defined.

Lemma map_id_update_first (p : Task.t -> bool) (f : Task.t -> Task.t)
  (l : list Task.t) :
  (forall t, Task.id (f t) = Task.id t) ->
  map Task.id (update_first p f l) = map Task.id l.
Proof.
  intros Hf. induction l as [|x xs IH]; simpl; [reflexivity|].
  destruct (p x); simpl; [now rewrite Hf|now rewrite IH].
Qed.

Lemma find_update_first_other (i j : Z) (f : Task.t -> Task.t)
  (l : list Task.t) :
  (forall t, Task.id (f t) = Task.id t) -> j <> i ->
  find (fun t => Task.id t =? j)
       (update_first (fun t => Task.id t =? i) f l)
  = find (fun t => Task.id t =? j) l.
Proof.
  intros Hf Hne. induction l as [|x xs IH]; simpl; [reflexivity|].
  destruct (Z.eqb_spec (Task.id x) i) as [E|E]; simpl.
  - rewrite Hf. destruct (Z.eqb_spec (Task.id x) j); [congruence|reflexivity].
  - destruct (Task.id x =? j); [reflexivity|exact IH].
Qed.

Lemma update_first_fixed (p : Task.t -> bool) (f : Task.t -> Task.t)
  (l : list Task.t) (t : Task.t) :
  find p l = Some t -> f t = t -> update_first p f l = l.
Proof.
  induction l as [|x xs IH]; simpl; intros H Hf; [reflexivity|].
  destruct (p x).
  - injection H as ->. now rewrite Hf.
  - f_equal. now apply IH.
Qed.

Lemma apply_update_created_at (data : UpdateTask.t) (now : string)
  (task : Task.t) :
  Task.created_at (apply_update data now task) = Task.created_at task.
Proof.
  unfold apply_update. cbv zeta.
  rewrite (assign_if_given_keeps Task.created_at).
  - now rewrite !(assign_if_given_keeps Task.created_at) by reflexivity.
  - intros v x. unfold assign_status.
    destruct (String.eqb v "completed" && _)%bool; reflexivity.
Qed.

(** What an update leaves alone: the identifiers in the store and their
    order, the identifier and creation time of the updated task, and every
    task stored under another identifier; it writes the store once. *)
Theorem update_task_frame :
  forall (data : UpdateTask.t) (now : string) (w : World) (task : Task.t)
         (j : Z),
    get_task (UpdateTask.id data) w = Some task ->
    let w' := snd (update_task data now w) in
    live_ids w' = live_ids w
    /\ saves w' = S (saves w)
    /\ (j <> UpdateTask.id data -> get_task j w' = get_task j w)
    /\ (exists task',
          get_task (UpdateTask.id data) w' = Some task'
          /\ Task.id task' = Task.id task
          /\ Task.created_at task' = Task.created_at task).
Proof.
  intros data now w task j H w'.
  destruct (update_task_found data now w task H) as [E1 E2].
  subst w'. repeat split.
  - rewrite E1. cbn [snd]. unfold live_ids. rewrite load_save.
    apply map_id_update_first. intros t. apply apply_update_id.
  - now rewrite E1.
  - intros Hne. rewrite E1. cbn [snd]. unfold get_task. rewrite load_save.
    apply find_update_first_other; [|exact Hne].
    intros t. apply apply_update_id.
  - exists (apply_update data now task).
    split; [exact E2|]. split.
    + apply apply_update_id.
    + apply apply_update_created_at.
Qed.

Lemma update_task_frame_witness :
  get_task (UpdateTask.id finish_request) sample_world = Some sample_task
  /\ live_ids (snd (update_task finish_request "2024-06-12T18:00:00"
                                sample_world))
     = live_ids sample_world.
Proof.
  split; [reflexivity|].
  apply (update_task_frame finish_request "2024-06-12T18:00:00" sample_world
                           sample_task 2).
  reflexivity.
Defined.

Lemma assign_status_completed_again (now : string) (t : Task.t) :
  Task.status t = "completed"%string ->
  assign_status "completed" now t = t.
Proof.
  intros H. unfold assign_status. rewrite H. cbn [String.eqb].
  destruct t as [i n d tg du p s c co]. cbn [Task.status] in H. subst s.
  reflexivity.
Qed.

(** Finishing a task twice: the first [finish] stamps [completed_at], the
    second one changes nothing in the stored tasks, so the first timestamp
    stays. *)
Theorem finish_twice :
  forall (i : Z) (now1 now2 : string) (w : World) (task : Task.t),
    get_task i w = Some task ->
    Task.status task <> "completed"%string ->
    let w1 := snd (update_task (finish i) now1 w) in
    let w2 := snd (update_task (finish i) now2 w1) in
    load_tasks w2 = load_tasks w1
    /\ exists done,
         get_task i w2 = Some done
         /\ Task.status done = "completed"%string
         /\ Task.completed_at done = Some now1.
Proof.
  intros i now1 now2 w task H Hs w1 w2.
  destruct (update_task_found (finish i) now1 w task H) as [E1 G1].
  cbn [UpdateTask.id finish] in E1, G1. fold w1 in G1.
  set (done := apply_update (finish i) now1 task) in *.
  assert (Hd : Task.status done = "completed"%string
               /\ Task.completed_at done = Some now1).
  { subst done. unfold apply_update, finish. cbn [UpdateTask.name
      UpdateTask.desc UpdateTask.tags UpdateTask.due_date UpdateTask.priority
      UpdateTask.status assign_if_given]. unfold assign_status.
    destruct (String.eqb_spec (Task.status task) "completed") as [E|E];
      [contradiction|]. split; reflexivity. }
  destruct Hd as [Hd1 Hd2].
  assert (Hfix : apply_update (finish i) now2 done = done).
  { unfold apply_update, finish. cbn [UpdateTask.name UpdateTask.desc
      UpdateTask.tags UpdateTask.due_date UpdateTask.priority
      UpdateTask.status assign_if_given].
    now apply assign_status_completed_again. }
  destruct (update_task_found (finish i) now2 w1 done G1) as [E2 G2].
  cbn [UpdateTask.id finish] in E2, G2. fold w2 in G2.
  assert (Hl : load_tasks w2 = load_tasks w1).
  { subst w2. rewrite E2. cbn [snd]. rewrite load_save.
    apply update_first_fixed with (t := done); [exact G1|exact Hfix]. }
  split; [exact Hl|]. exists done. rewrite Hfix in G2. auto.
Qed.

Lemma finish_twice_witness :
  get_task 1 sample_world = Some sample_task
  /\ Task.status sample_task <> "completed"%string
  /\ load_tasks (snd (update_task (finish 1) "2024-06-13T08:00:00"
                        (snd (update_task (finish 1) "2024-06-12T18:00:00"
                                          sample_world))))
     = load_tasks (snd (update_task (finish 1) "2024-06-12T18:00:00"
                                    sample_world)).
Proof.
  assert (Hs : Task.status sample_task <> "completed"%string)
    by discriminate.
  split; [reflexivity|]. split; [exact Hs|].
  apply (finish_twice 1 "2024-06-12T18:00:00" "2024-06-13T08:00:00"
                      sample_world sample_task eq_refl Hs).
Defined.

Lemma next_id_after_create (data : CreateTask.t) (now : string) (w : World) :
  next_id w < next_id (snd (create_task data now w)).
Proof.
  apply next_id_above. rewrite create_task_live_ids.
  apply in_or_app. right. now left.
Qed.

Lemma run_creates_from (ops : list op) (w : World) :
  forallb is_create ops = true ->
  StronglySorted Z.lt (fst (run ops w))
  /\ Forall (fun i => next_id w <= i) (fst (run ops w)).
Proof.
  revert w. induction ops as [|o rest IH]; intros w H.
  - split; constructor.
  - destruct o as [data now|task_id]; [|discriminate].
    cbn [forallb is_create andb] in H. cbn [run].
    pose proof (next_id_after_create data now w) as Hlt.
    destruct (create_task data now w) as [task w1] eqn:E.
    assert (Et : Task.id task = next_id w)
      by (unfold create_task in E; now injection E as <- _).
    cbn [snd] in Hlt. destruct (IH w1 H) as [Hs Hf].
    destruct (run rest w1) as [ids w2]. cbn [fst] in *. split.
    + constructor; [exact Hs|].
      apply (Forall_impl _ (P := fun i => next_id w1 <= i)); [|exact Hf].
      intros i Hi. lia.
    + constructor; [lia|].
      apply (Forall_impl _ (P := fun i => next_id w1 <= i)); [|exact Hf].
      intros i Hi. lia.
Qed.

(** Without deletions identifiers are never reused: in a run of creations
    the identifiers handed out are strictly increasing, and each is greater
    than every identifier that was in the store at the start. *)
Theorem creations_increase :
  forall (ops : list op) (w : World),
    forallb is_create ops = true ->
    StronglySorted Z.lt (fst (run ops w))
    /\ (forall i j, In i (fst (run ops w)) -> In j (live_ids w) -> j < i).
Proof.
  intros ops w H. destruct (run_creates_from ops w H) as [Hs Hf].
  split; [exact Hs|]. intros i j Hi Hj.
  rewrite Forall_forall in Hf. apply Hf in Hi. apply next_id_above in Hj.
  lia.
Qed.

Lemma creations_increase_witness :
  forallb is_create create_ops = true
  /\ StronglySorted Z.lt (fst (run create_ops empty_world)).
Proof.
  split; [reflexivity|].
  apply (creations_increase create_ops empty_world). reflexivity.
Defined.

(** * Further properties of the query engine *)

(** ** The sort is ordered and stable *)

Section StableSort.
Context {K A : Type} (ltb : K -> K -> bool) (keq : K -> K -> bool).
Hypothesis ltb_asym : forall a b, ltb a b = true -> ltb b a = false.
Hypothesis ltb_negtrans :
  forall a b c, ltb a b = false -> ltb b c = false -> ltb a c = false.
Hypothesis keq_eq : forall a b, keq a b = true -> a = b.




Lemma insert_by_class (k : K) (x : K * A) (l : list (K * A)) :
  filter (fun p => keq (fst p) k) (insert_by ltb x l)
  = filter (fun p => keq (fst p) k) (x :: l).
Proof.
  induction l as [|y ys IH]; [reflexivity|].
  cbn [insert_by]. destruct (ltb (fst y) (fst x)) eqn:E; [|reflexivity].
  cbn [filter] in *. rewrite IH.
  destruct (keq (fst x) k) eqn:Ex, (keq (fst y) k) eqn:Ey; try reflexivity.
  apply keq_eq in Ex, Ey. rewrite Ex, Ey in E.
  assert (F : ltb k k = false) by (apply ltb_asym; exact E). congruence.
Qed.

Lemma stable_sort_class (k : K) (l : list (K * A)) :
  filter (fun p => keq (fst p) k) (stable_sort ltb l)
  = filter (fun p => keq (fst p) k) l.
Proof.
  induction l as [|x xs IH]; [reflexivity|].
  cbn [stable_sort]. rewrite insert_by_class. cbn [filter]. now rewrite IH.
Qed.

End StableSort.

(** The keys [mapM] computes are the keys of the tasks they are paired
    with. *)
Lemma mapM_combine {K : Type} (key : Task.t -> result K)
  (tasks : list Task.t) (keys : list K) :
  mapM key tasks = Ok keys ->
  Forall (fun p => key (snd p) = Ok (fst p)) (combine keys tasks).
Proof.
  revert keys. induction tasks as [|t ts IH]; intros keys H.
  - destruct keys; constructor.
  - cbn [mapM] in H. apply bind_ok in H as (k & Ek & H).
    apply bind_ok in H as (ks & Eks & H). injection H as <-.
    cbn [combine]. constructor; [exact Ek|now apply IH].
Qed.

Section SortByKey.
Context {K : Type} (ltb : K -> K -> bool) (keq : K -> K -> bool).
Context (key : Task.t -> result K).
Hypothesis ltb_asym : forall a b, ltb a b = true -> ltb b a = false.
Hypothesis ltb_negtrans :
  forall a b c, ltb a b = false -> ltb b c = false -> ltb a c = false.
Hypothesis keq_eq : forall a b, keq a b = true -> a = b.


(** The tasks of one key keep the order they had before the sort. *)
Lemma sort_by_key_stable (tasks sorted : list Task.t) (k : K) :
  sort_by_key ltb key tasks = Ok sorted ->
  let same t := match key t with Ok k' => keq k' k | Raise _ => false end in
  filter same sorted = filter same tasks.
Proof.
  intros H same. unfold sort_by_key in H.
  apply bind_ok in H as (keys & Ek & H).
  injection H as <-.
  pose proof (mapM_combine key tasks keys Ek) as Hl.
  assert (Hf : forall l : list (K * Task.t),
             Forall (fun p => key (snd p) = Ok (fst p)) l ->
             filter same (map snd l)
             = map snd (filter (fun p => keq (fst p) k) l)).
  { induction l as [|p ps IH]; intros Hp; [reflexivity|].
    apply Forall_cons_iff in Hp as [Hp1 Hp2]. cbn [map filter].
    unfold same at 1. rewrite Hp1.
    destruct (keq (fst p) k); cbn [map]; now rewrite IH. }
  rewrite Hf.
  - rewrite (stable_sort_class ltb keq ltb_asym keq_eq).
    rewrite <- Hf by exact Hl.
    rewrite map_snd_combine; [reflexivity|]. now apply mapM_length in Ek.
  - apply (Permutation_Forall
             (Permutation_sym (stable_sort_perm ltb (combine keys tasks)))).
    exact Hl.
Qed.

End SortByKey.





Lemma Zltb_asym (a b : Z) : (a <? b) = true -> (b <? a) = false.
Proof. rewrite Z.ltb_lt, Z.ltb_ge. lia. Qed.


Lemma date_eqb_fields (a b : date) :
  date_eqb a b = true <->
  year a = year b /\ month a = month b /\ day a = day b.
Proof.
  unfold date_eqb. rewrite !andb_true_iff, !Z.eqb_eq. tauto.
Qed.

Lemma datetime_ltb_lex (a b : datetime) :
  datetime_ltb a b = true <->
  year (fst a) < year (fst b)
  \/ (year (fst a) = year (fst b)
      /\ (month (fst a) < month (fst b)
          \/ (month (fst a) = month (fst b)
              /\ (day (fst a) < day (fst b)
                  \/ (day (fst a) = day (fst b) /\ snd a < snd b))))).
Proof.
  unfold datetime_ltb. rewrite orb_true_iff, andb_true_iff.
  rewrite date_ltb_lex, date_eqb_fields, Z.ltb_lt. lia.
Qed.

Lemma datetime_ltb_asym (a b : datetime) :
  datetime_ltb a b = true -> datetime_ltb b a = false.
Proof.
  intros H. apply datetime_ltb_lex in H.
  destruct (datetime_ltb b a) eqn:E; [|reflexivity].
  apply datetime_ltb_lex in E. lia.
Qed.


Lemma datetime_eqb_eq (a b : datetime) : datetime_eqb a b = true -> a = b.
Proof.
  unfold datetime_eqb. destruct a as [da ta], b as [db tb]. cbn [fst snd].
  rewrite andb_true_iff, date_eqb_eq, Z.eqb_eq. now intros [-> ->].
Qed.







Lemma filter_none {A : Type} (p : A -> bool) (l : list A) :
  (forall x, p x = false) -> filter p l = [].
Proof.
  intros H. induction l as [|x xs IH]; simpl; [reflexivity|].
  now rewrite H.
Qed.

(** The sort of [list_tasks] is stable: the tasks that share a sort key
    with any given task come out in the order in which they went in. *)
Theorem sort_tasks_stable :
  forall (orderby : OrderBy) (tasks sorted : list Task.t) (t0 : Task.t),
    sort_tasks orderby tasks = Ok sorted ->
    filter (same_sort_key orderby t0) sorted
    = filter (same_sort_key orderby t0) tasks.
Proof.
  intros orderby tasks sorted t0.
  destruct orderby; cbv beta iota delta [sort_tasks same_sort_key]; intros H.
  - destruct (due_date_key t0) as [k0|e] eqn:E0.
    + exact (sort_by_key_stable datetime_ltb datetime_eqb due_date_key
               datetime_ltb_asym datetime_eqb_eq tasks sorted k0 H).
    + rewrite !filter_none; [reflexivity| |];
        intros x; now destruct (due_date_key x).
  - unfold priority_rank. destruct (priority_order (Task.priority t0))
      as [k0|e] eqn:E0.
    + exact (sort_by_key_stable Z.ltb Z.eqb
               (fun t => priority_order (Task.priority t))
               Zltb_asym (fun a b => proj1 (Z.eqb_eq a b))
               tasks sorted k0 H).
    + rewrite !filter_none; [reflexivity| |];
        intros x; now destruct (priority_order (Task.priority x)).
  - exact (sort_by_key_stable Z.ltb Z.eqb (fun t => Ok (Task.id t))
             Zltb_asym (fun a b => proj1 (Z.eqb_eq a b))
             tasks sorted (Task.id t0) H).
Qed.

Lemma sort_tasks_stable_witness :
  sort_tasks ByPriority (load_tasks ranked_world)
  = Ok [ranked 2 (Some "high"%string); ranked 4 (Some "high"%string);
        ranked 1 (Some "low"%string); ranked 3 None]
  /\ filter (same_sort_key ByPriority (ranked 4 (Some "high"%string)))
            [ranked 2 (Some "high"%string); ranked 4 (Some "high"%string);
             ranked 1 (Some "low"%string); ranked 3 None]
     = [ranked 2 (Some "high"%string); ranked 4 (Some "high"%string)].
Proof.
  split; [reflexivity|].
  rewrite (sort_tasks_stable
             ByPriority (load_tasks ranked_world)
             [ranked 2 (Some "high"%string); ranked 4 (Some "high"%string);
              ranked 1 (Some "low"%string); ranked 3 None]
             (ranked 4 (Some "high"%string)) eq_refl).
  reflexivity.
Defined.

(** ** Due dates that are not calendar dates *)







(** Ordered by identifier and with no range or the range [all],
    [list_tasks] reads neither due dates nor priorities, and returns
    whatever the store holds. *)
Theorem list_tasks_by_id_returns :
  forall (filters : ListTasks.t) (today : date) (w : World),
    ListTasks.orderby filters = ById ->
    ListTasks.range filters = None \/ ListTasks.range filters = Some RAll ->
    exists l, list_tasks filters today w = Ok l.
Proof.
  intros filters today w Ho Hr. rewrite list_tasks_stages.
  assert (Hk : exists kept,
             range_filter (ListTasks.range filters) today
                          (basic_filters filters (load_tasks w)) = Ok kept)
    by (destruct Hr as [-> | ->]; now eexists).
  destruct Hk as [kept ->]. cbn [bind]. unfold sort_and_limit. rewrite Ho.
  destruct (sort_by_key_total Z.ltb (fun t => Ok (Task.id t)) kept)
    as [sorted Es]; [intros t _; now eexists|].
  cbv beta iota delta [sort_tasks]. rewrite Es. now eexists.
Qed.

Lemma list_tasks_by_id_returns_witness :
  ListTasks.orderby (by_id None) = ById
  /\ exists l, list_tasks (by_id None) june_10 tomorrow_world = Ok l.
Proof.
  split; [reflexivity|].
  apply (list_tasks_by_id_returns (by_id None) june_10 tomorrow_world).
  - reflexivity.
  - left. reflexivity.
Defined.

(** ** An explicit limit *)

(** With an explicit limit other than 0, [list_tasks] returns a prefix of
    the sorted matches: the first [n] of them for a positive [n] (all of
    them when there are no more than [n]), and all but the last [-n] for a
    negative [n]. *)
Theorem list_tasks_explicit_limit :
  forall (filters : ListTasks.t) (today : date) (w : World) (n : Z)
         (l : list Task.t),
    ListTasks.limit filters = Some n ->
    n <> 0 ->
    list_tasks filters today w = Ok l ->
    exists m rest,
      sorted_matches filters today w = Ok m
      /\ m = l ++ rest
      /\ Z.of_nat (List.length l)
         = (if 0 <? n then Z.min n (Z.of_nat (List.length m))
            else Z.max 0 (Z.of_nat (List.length m) + n)).
Proof.
  intros filters today w n l Hl Hn H. rewrite list_tasks_limit in H.
  apply bind_ok in H as (m & Hm & H). exists m.
  assert (El : l = slice_to m (limit_or_10 (ListTasks.limit filters)))
    by congruence.
  rewrite Hl in El. unfold limit_or_10 in El.
  destruct (Z.eqb_spec n 0) as [|_]; [contradiction|].
  unfold slice_to in El.
  destruct (Z.leb_spec 0 n) as [Hpos|Hneg]; subst l.
  - exists (skipn (Z.to_nat n) m). split; [exact Hm|].
    split; [now rewrite firstn_skipn|].
    rewrite length_firstn. rewrite (proj2 (Z.ltb_lt 0 n)) by lia. lia.
  - exists (skipn (Z.to_nat (Z.of_nat (List.length m) + n)) m).
    split; [exact Hm|]. split; [now rewrite firstn_skipn|].
    rewrite length_firstn. rewrite (proj2 (Z.ltb_ge 0 n)) by lia. lia.
Qed.

Lemma list_tasks_explicit_limit_witness :
  ListTasks.limit (by_id (Some (-1))) = Some (-1)
  /\ -1 <> 0
  /\ list_tasks (by_id (Some (-1))) june_10 mixed_world = Ok []
  /\ exists m rest,
       sorted_matches (by_id (Some (-1))) june_10 mixed_world = Ok m
       /\ m = [] ++ rest
       /\ Z.of_nat (List.length (@nil Task.t))
          = (if 0 <? -1 then Z.min (-1) (Z.of_nat (List.length m))
             else Z.max 0 (Z.of_nat (List.length m) + -1)).
Proof.
  split; [reflexivity|]. split; [discriminate|]. split; [reflexivity|].
  apply (list_tasks_explicit_limit (by_id (Some (-1))) june_10 mixed_world
                                   (-1) []); [reflexivity|discriminate|].
  reflexivity.
Defined.

(** ** The basic filters *)






(** ** The keyword filter ignores letter case *)



Lemma lower_empty (k : string) :
  String.eqb (lower k) EmptyString = String.eqb k EmptyString.
Proof. now destruct k. Qed.



(** ** How the range buckets fit together *)

Lemma date_leb_lex (a b : date) :
  date_leb a b = true <->
  year a < year b
  \/ (year a = year b
      /\ (month a < month b \/ (month a = month b /\ day a <= day b))).
Proof.
  unfold date_leb. rewrite negb_true_iff.
  destruct (date_ltb b a) eqn:E.
  - apply date_ltb_lex in E. split; [discriminate|lia].
  - assert (N : ~ date_ltb b a = true) by congruence.
    rewrite date_ltb_lex in N. split; [lia|reflexivity].
Qed.

(** A window whose start is after its end holds no due date. *)
Lemma due_between_empty (lo hi : date) (t : Task.t) :
  date_ltb hi lo = true -> due_between lo hi t = false.
Proof.
  intros H. unfold due_between.
  destruct (truthy_str (Task.due_date t)); [|reflexivity].
  destruct (due_on t) as [d|]; [|reflexivity]. cbn [andb].
  apply date_ltb_lex in H.
  destruct (date_leb lo d) eqn:E1; [|reflexivity].
  destruct (date_leb d hi) eqn:E2; [|reflexivity].
  apply date_leb_lex in E1, E2. lia.
Qed.

Lemma next_day_last_of_month (d : date) :
  next_day (last_day_of_month d) = first_of_next_month d.
Proof.
  unfold next_day, last_day_of_month, first_of_next_month.
  cbn [year month day]. now rewrite Z.ltb_irrefl.
Qed.

Lemma sort_and_limit_nil (filters : ListTasks.t) :
  sort_and_limit filters [] = Ok [].
Proof.
  unfold sort_and_limit, slice_to.
  destruct (ListTasks.orderby filters); cbn [sort_tasks sort_by_key mapM
    bind combine stable_sort map]; destruct (0 <=? _);
    now rewrite firstn_nil.
Qed.

(** The ranges [month] and [year] of [list_tasks] meet without overlap:
    on a store whose due dates parse, the range [month] keeps the tasks due
    from today + 8 to the last day of this month, the range [year] keeps the
    tasks due from the day after that last day to December 31, both in the
    order of the store, and no task is kept by both. *)
Theorem month_and_year_buckets_meet :
  forall (today : date) (tasks : list Task.t),
    valid_date today = true ->
    year today < MAXYEAR ->
    due_dates_parse tasks ->
    exists ms ys,
      range_filter (Some RMonth) today tasks = Ok ms
      /\ range_filter (Some RYear) today tasks = Ok ys
      /\ ms = filter (due_between (shift today 8) (last_day_of_month today))
                     tasks
      /\ ys = filter (due_between (next_day (last_day_of_month today))
                                  (last_day_of_year today)) tasks
      /\ (forall t, In t ms -> ~ In t ys).
Proof.
  intros today tasks Hv Hy Hp.
  rewrite range_filter_month, range_filter_year by assumption.
  rewrite <- next_day_last_of_month.
  do 2 eexists. do 4 (split; [reflexivity|]).
  intros t Hm Hyr.
  apply filter_In in Hm as [_ Hm]. apply filter_In in Hyr as [_ Hyr].
  apply due_between_gap with (hi := last_day_of_year today) in Hm.
  congruence.
Qed.

Lemma month_and_year_buckets_meet_witness :
  valid_date june_10 = true
  /\ year june_10 < MAXYEAR
  /\ range_filter (Some RMonth) june_10 (load_tasks summer_world)
     = Ok [due 2 "2024-06-18"; due 3 "2024-06-30"]
  /\ range_filter (Some RYear) june_10 (load_tasks summer_world)
     = Ok [due 4 "2024-07-01"; due 5 "2024-12-31"].
Proof.
  split; [reflexivity|]. split; [reflexivity|].
  destruct (month_and_year_buckets_meet june_10 (load_tasks summer_world))
    as (ms & ys & Em & Ey & -> & -> & _).
  - reflexivity.
  - reflexivity.
  - intros t [<-|[<-|[<-|[<-|[<-|[<-|[]]]]]]] _; eexists; reflexivity.
  - split; [exact Em|exact Ey].
Defined.

(** Two buckets that can be empty whatever the store holds: the year bucket
    in December, since it starts on January 1 of the next year and ends on
    December 31 of this one, and the month bucket when today + 8 is already
    in the next month. *)
Theorem empty_range_buckets :
  forall (filters : ListTasks.t) (today : date) (w : World),
    valid_date today = true ->
    year today < MAXYEAR ->
    due_dates_parse (basic_filters filters (load_tasks w)) ->
    (ListTasks.range filters = Some RYear -> month today = 12 ->
     list_tasks filters today w = Ok [])
    /\ (ListTasks.range filters = Some RMonth ->
        days_in_month (year today) (month today) < day today + 8 ->
        list_tasks filters today w = Ok []).
Proof.
  intros filters today w Hv Hy Hp.
  pose proof (valid_date_fields today Hv) as (Hyr & Hm & Hd).
  pose proof (days_in_month_bounds (year today) (month today)) as Hb.
  split.
  - intros Hr H12. rewrite list_tasks_stages, Hr.
    rewrite range_filter_year by assumption. cbn [bind].
    rewrite filter_none; [apply sort_and_limit_nil|].
    intros t. apply due_between_empty. apply date_ltb_lex.
    unfold first_of_next_month, last_day_of_year.
    rewrite (proj2 (Z.ltb_ge (month today) 12)) by lia.
    cbn [year month day]. lia.
  - intros Hr Hlate. rewrite list_tasks_stages, Hr.
    rewrite range_filter_month by assumption. cbn [bind].
    rewrite filter_none; [apply sort_and_limit_nil|].
    intros t. apply due_between_empty. apply date_ltb_lex.
    rewrite shift_small by lia. unfold add_small, last_day_of_month.
    rewrite (proj2 (Z.leb_gt _ _)) by lia.
    destruct (Z.ltb_spec (month today) 12); cbn [year month day]; lia.
Qed.

Lemma december_world_parses (filters : ListTasks.t) :
  due_dates_parse (basic_filters filters (load_tasks december_world)).
Proof.
  apply due_dates_parse_incl with (1 := basic_filters_incl _ _).
  intros t [<-|[]] _; eexists; reflexivity.
Defined.

Lemma empty_range_buckets_witness :
  valid_date december_20 = true
  /\ year december_20 < MAXYEAR
  /\ month december_20 = 12
  /\ list_tasks (in_range RYear) december_20 december_world = Ok [].
Proof.
  split; [reflexivity|]. split; [reflexivity|]. split; [reflexivity|].
  apply (proj1 (empty_range_buckets (in_range RYear) december_20
                                    december_world eq_refl eq_refl
                                    (december_world_parses _)));
    reflexivity.
Defined.

Lemma due_between_intro (lo hi d : date) (t : Task.t) :
  has_due_date t = true -> due_on t = Ok d ->
  date_leb lo d = true -> date_leb d hi = true ->
  due_between lo hi t = true.
Proof.
  unfold has_due_date, due_between. intros -> -> -> ->. reflexivity.
Qed.

(** The week bucket and the year bucket overlap once the week window runs
    past the end of the month: from the 25th day of a 31-day month on (and
    correspondingly for shorter months), a task due on the first day of the
    next month is kept by the range [week] and by the range [year]. *)
Theorem week_and_year_buckets_overlap :
  forall (today : date) (tasks : list Task.t) (t : Task.t),
    valid_date today = true ->
    year today < MAXYEAR ->
    due_dates_parse tasks ->
    month today < 12 ->
    days_in_month (year today) (month today) < day today + 7 ->
    In t tasks ->
    has_due_date t = true ->
    due_on t = Ok (first_of_next_month today) ->
    exists week year,
      range_filter (Some RWeek) today tasks = Ok week
      /\ range_filter (Some RYear) today tasks = Ok year
      /\ In t week /\ In t year.
Proof.
  intros today tasks t Hv Hy Hp Hm12 Hlate Hin Ht Hdue.
  pose proof (valid_date_fields today Hv) as (Hyr & Hm & Hd).
  pose proof (days_in_month_bounds (year today) (month today)) as Hb.
  rewrite range_filter_week, range_filter_year by assumption.
  do 2 eexists. split; [reflexivity|]. split; [reflexivity|].
  split; apply filter_In; (split; [exact Hin|]);
    apply (due_between_intro _ _ _ _ Ht Hdue); apply date_leb_lex.
  - rewrite shift_small by lia. unfold add_small, first_of_next_month.
    rewrite (proj2 (Z.ltb_lt (month today) 12)) by lia.
    destruct (Z.leb_spec (day today + 1)
                         (days_in_month (year today) (month today)));
      cbn [year month day]; lia.
  - rewrite shift_small by lia. unfold add_small, first_of_next_month.
    rewrite (proj2 (Z.ltb_lt (month today) 12)) by lia.
    rewrite (proj2 (Z.leb_gt _ _)) by lia. cbn [year month day]. lia.
  - unfold first_of_next_month. destruct (month today <? 12);
      cbn [year month day]; lia.
  - unfold first_of_next_month, last_day_of_year.
    rewrite (proj2 (Z.ltb_lt (month today) 12)) by lia.
    cbn [year month day]. lia.
Qed.

Lemma week_and_year_buckets_overlap_witness :
  valid_date june_28 = true
  /\ days_in_month (year june_28) (month june_28) < day june_28 + 7
  /\ exists week year,
       range_filter (Some RWeek) june_28 (load_tasks july_world) = Ok week
       /\ range_filter (Some RYear) june_28 (load_tasks july_world) = Ok year
       /\ In (due 1 "2024-07-01") week /\ In (due 1 "2024-07-01") year.
Proof.
  split; [reflexivity|]. split; [reflexivity|].
  apply (week_and_year_buckets_overlap june_28 (load_tasks july_world)
                                       (due 1 "2024-07-01"));
    try reflexivity.
  - intros t [<-|[]] _. eexists. reflexivity.
  - left. reflexivity.
Defined.

(** * The command-line helpers *)

(** ** [parse_tags] *)

Lemma rstrip_cons (c : ascii) (r : string) :
  rstrip (String c r)
  = if (String.eqb (rstrip r) EmptyString && is_space c)%bool
    then EmptyString else String c (rstrip r).
Proof.
  cbn [rstrip]. destruct (rstrip r); [|reflexivity].
  cbn [String.eqb andb]. now destruct (is_space c).
Qed.

Lemma rstrip_idem (s : string) : rstrip (rstrip s) = rstrip s.
Proof.
  induction s as [|c r IH]; [reflexivity|].
  rewrite rstrip_cons.
  destruct (String.eqb (rstrip r) EmptyString && is_space c)%bool eqn:E;
    [reflexivity|].
  rewrite rstrip_cons, IH, E. reflexivity.
Qed.

Lemma lstrip_head (s : string) :
  lstrip s = EmptyString
  \/ exists c r, lstrip s = String c r /\ is_space c = false.
Proof.
  induction s as [|c r IH]; [now left|].
  cbn [lstrip]. destruct (is_space c) eqn:E; [exact IH|].
  right. now exists c, r.
Qed.

Lemma strip_idem (s : string) : strip (strip s) = strip s.
Proof.
  unfold strip. destruct (lstrip_head s) as [->|(c & r & -> & Hc)];
    [reflexivity|].
  rewrite rstrip_cons, Hc, andb_false_r. cbn [lstrip]. rewrite Hc.
  rewrite rstrip_cons, rstrip_idem, Hc, andb_false_r. reflexivity.
Qed.

Lemma lstrip_comma_free (s : string) :
  comma_free s = true -> comma_free (lstrip s) = true.
Proof.
  induction s as [|c r IH]; [reflexivity|].
  cbn [lstrip]. destruct (is_space c); [|tauto].
  cbn [comma_free]. intros H. apply andb_prop in H. now apply IH.
Qed.

Lemma rstrip_comma_free (s : string) :
  comma_free s = true -> comma_free (rstrip s) = true.
Proof.
  induction s as [|c r IH]; [reflexivity|].
  rewrite rstrip_cons. cbn [comma_free]. intros H.
  apply andb_prop in H as [Hc Hr].
  destruct (String.eqb (rstrip r) EmptyString && is_space c)%bool;
    [reflexivity|].
  cbn [comma_free]. now rewrite Hc, IH.
Qed.

Lemma split_on_comma_free (s : string) :
  Forall (fun p => comma_free p = true) (split_on "," s).
Proof.
  induction s as [|c r IH]; [repeat constructor|].
  cbn [split_on]. destruct (Ascii.eqb c ",") eqn:E.
  - constructor; [reflexivity|exact IH].
  - destruct (split_on "," r) as [|p ps].
    + repeat constructor. cbn [comma_free]. now rewrite E.
    + apply Forall_cons_iff in IH as [Hp Hps].
      constructor; [|exact Hps]. cbn [comma_free]. now rewrite E, Hp.
Qed.

Lemma lstrip_separators (s : string) :
  comma_free s = true -> only_separators s = true -> strip s = EmptyString.
Proof.
  unfold strip. induction s as [|c r IH]; [reflexivity|].
  cbn [comma_free only_separators lstrip]. intros Hc Hs.
  apply andb_prop in Hc as [Hc Hr]. apply andb_prop in Hs as [Hs Hsr].
  apply negb_true_iff in Hc. rewrite Hc in Hs. cbn [orb] in Hs.
  rewrite Hs. now apply IH.
Qed.

Lemma split_on_separators (s : string) :
  only_separators s = true ->
  Forall (fun p => only_separators p = true) (split_on "," s).
Proof.
  induction s as [|c r IH]; [repeat constructor|].
  cbn [only_separators split_on]. intros H. apply andb_prop in H as [Hc Hr].
  specialize (IH Hr). destruct (Ascii.eqb c ",") eqn:E.
  - constructor; [reflexivity|exact IH].
  - cbn [orb] in Hc. destruct (split_on "," r) as [|p ps].
    + repeat constructor. cbn [only_separators]. now rewrite E, Hc.
    + apply Forall_cons_iff in IH as [Hp Hps].
      constructor; [|exact Hps]. cbn [only_separators].
      now rewrite E, Hc, Hp.
Qed.

Lemma filter_none_in {A : Type} (p : A -> bool) (l : list A) :
  (forall x, In x l -> p x = false) -> filter p l = [].
Proof.
  induction l as [|x xs IH]; intros H; [reflexivity|].
  cbn [filter]. rewrite (H x (or_introl eq_refl)).
  apply IH. intros y Hy. apply H. now right.
Qed.

(** What [parse_tags] returns: nothing for an absent or empty argument;
    otherwise a list of tags each of which is non-empty, has no comma and
    no white space at either end.  For an argument made only of commas and
    white space that list is empty, which is not the same as nothing. *)
Theorem parse_tags_clean :
  forall (s : string) (l : list string),
    parse_tags None = None
    /\ parse_tags (Some EmptyString) = None
    /\ (parse_tags (Some s) = Some l -> Forall clean_tag l)
    /\ (s <> EmptyString -> only_separators s = true ->
        parse_tags (Some s) = Some []).
Proof.
  intros s l. split; [reflexivity|]. split; [reflexivity|]. split.
  - unfold parse_tags. destruct (String.eqb s EmptyString); [discriminate|].
    intros H. injection H as <-. apply Forall_forall. intros tag Hin.
    apply in_map_iff in Hin as (p & <- & Hp).
    apply filter_In in Hp as [Hp Hne]. unfold clean_tag. repeat split.
    + intros E. unfold nonempty in Hne. now rewrite E in Hne.
    + pose proof (split_on_comma_free s) as Hf. rewrite Forall_forall in Hf.
      unfold strip. apply rstrip_comma_free, lstrip_comma_free. now apply Hf.
    + apply strip_idem.
  - intros Hne Hs. unfold parse_tags.
    destruct (String.eqb_spec s EmptyString) as [|_]; [contradiction|].
    rewrite filter_none_in; [reflexivity|]. intros p Hin. unfold nonempty.
    pose proof (split_on_comma_free s) as Hf.
    pose proof (split_on_separators s Hs) as Hg.
    rewrite Forall_forall in Hf, Hg.
    now rewrite (lstrip_separators p (Hf p Hin) (Hg p Hin)).
Qed.

Lemma parse_tags_clean_witness :
  parse_tags (Some " work, home ,, a b ,"%string)
  = Some ["work"; "home"; "a b"]%string
  /\ Forall clean_tag ["work"; "home"; "a b"]%string
  /\ parse_tags (Some ", ,"%string) = Some [].
Proof.
  split; [reflexivity|]. split.
  - apply (proj1 (proj2 (proj2 (parse_tags_clean
                                  " work, home ,, a b ,"
                                  ["work"; "home"; "a b"]%string)))).
    reflexivity.
  - apply (proj2 (proj2 (proj2 (parse_tags_clean ", ," [])))).
    + discriminate.
    + reflexivity.
Defined.








(** ** Formatting and reading a date *)

Lemma digit_char_digit (k : Z) :
  0 <= k <= 9 ->
  digit (digit_char k) = Some k /\ Ascii.eqb (digit_char k) "-" = false.
Proof.
  intros H.
  assert (E : k = 0 \/ k = 1 \/ k = 2 \/ k = 3 \/ k = 4 \/ k = 5 \/ k = 6
              \/ k = 7 \/ k = 8 \/ k = 9) by lia.
  repeat (destruct E as [->|E]; [split; reflexivity|]).
  subst k. split; reflexivity.
Qed.

Lemma split_dash_4 (a b c e : ascii) (rest : string) :
  Ascii.eqb a "-" = false -> Ascii.eqb b "-" = false ->
  Ascii.eqb c "-" = false -> Ascii.eqb e "-" = false ->
  split_dash (String a (String b (String c (String e (String "-" rest)))))
  = Some (String a (String b (String c (String e EmptyString))), rest).
Proof.
  intros Ha Hb Hc He. cbn [split_dash]. rewrite Ha, Hb, Hc, He.
  reflexivity.
Qed.

Lemma split_dash_2 (a b : ascii) (rest : string) :
  Ascii.eqb a "-" = false -> Ascii.eqb b "-" = false ->
  split_dash (String a (String b (String "-" rest)))
  = Some (String a (String b EmptyString), rest).
Proof.
  intros Ha Hb. cbn [split_dash]. rewrite Ha, Hb. reflexivity.
Qed.

Lemma split_dash_pad4 (y : Z) (rest : string) :
  0 <= y <= 9999 ->
  split_dash (pad4 y ++ String "-" rest) = Some (pad4 y, rest).
Proof.
  intros H. unfold pad4. cbn [String.append].
  apply split_dash_4; apply digit_char_digit;
    Z.div_mod_to_equations; lia.
Qed.

Lemma split_dash_pad2 (n : Z) (rest : string) :
  0 <= n <= 99 ->
  split_dash (pad2 n ++ String "-" rest) = Some (pad2 n, rest).
Proof.
  intros H. unfold pad2. cbn [String.append].
  apply split_dash_2; apply digit_char_digit;
    Z.div_mod_to_equations; lia.
Qed.

Lemma year_token_pad4 (y : Z) : 0 <= y <= 9999 -> year_token (pad4 y) = Some y.
Proof.
  intros H. unfold pad4, year_token.
  rewrite (proj1 (digit_char_digit (y / 1000)
                    ltac:(Z.div_mod_to_equations; lia))).
  rewrite (proj1 (digit_char_digit (y / 100 mod 10)
                    ltac:(Z.div_mod_to_equations; lia))).
  rewrite (proj1 (digit_char_digit (y / 10 mod 10)
                    ltac:(Z.div_mod_to_equations; lia))).
  rewrite (proj1 (digit_char_digit (y mod 10)
                    ltac:(Z.div_mod_to_equations; lia))).
  f_equal. Z.div_mod_to_equations. lia.
Qed.

Lemma month_token_pad2 (m : Z) : 1 <= m <= 12 -> month_token (pad2 m) = Some m.
Proof.
  intros H. rewrite <- (Z2Nat.id m) by lia.
  assert (Hn : (1 <= Z.to_nat m <= 12)%nat) by lia.
  generalize dependent (Z.to_nat m). intros n Hn.
  do 13 (destruct n as [|n]; [try lia; reflexivity|]). lia.
Qed.

Lemma day_token_pad2 (d : Z) : 1 <= d <= 31 -> day_token (pad2 d) = Some d.
Proof.
  intros H. rewrite <- (Z2Nat.id d) by lia.
  assert (Hn : (1 <= Z.to_nat d <= 31)%nat) by lia.
  generalize dependent (Z.to_nat d). intros n Hn.
  do 32 (destruct n as [|n]; [try lia; reflexivity|]). lia.
Qed.

(** What [strftime] writes, [strptime] reads back. *)
Lemma strptime_strftime (d : date) :
  valid_date d = true -> strptime_ymd (strftime_ymd d) = Ok d.
Proof.
  intros Hv. pose proof (valid_date_fields d Hv) as (Hy & Hm & Hd).
  pose proof (days_in_month_bounds (year d) (month d)) as Hb.
  unfold strftime_ymd, strptime_ymd.
  rewrite split_dash_pad4 by lia. rewrite split_dash_pad2 by lia.
  rewrite year_token_pad4, month_token_pad2, day_token_pad2 by lia.
  rewrite date_new_ok by lia. now destruct d.
Qed.

(** ** Ordinals and week days *)

Lemma days_before_year_succ (y : Z) :
  days_before_year (y + 1)
  = days_before_year y + (if is_leap y then 366 else 365).
Proof.
  unfold days_before_year, is_leap. cbv zeta.
  replace (y + 1 - 1) with y by lia.
  destruct (Z.eqb_spec (y mod 4) 0), (Z.eqb_spec (y mod 100) 0),
    (Z.eqb_spec (y mod 400) 0); cbn [andb orb negb];
    Z.div_mod_to_equations; lia.
Qed.

Lemma days_before_month_succ (y m : Z) :
  1 <= m <= 11 ->
  days_before_month y (m + 1) = days_before_month y m + days_in_month y m.
Proof.
  intros H. unfold days_before_month, days_in_month.
  generalize (is_leap y). intros b.
  assert (E : m = 1 \/ m = 2 \/ m = 3 \/ m = 4 \/ m = 5 \/ m = 6 \/ m = 7
              \/ m = 8 \/ m = 9 \/ m = 10 \/ m = 11) by lia.
  repeat (destruct E as [->|E]; [now destruct b|]).
  subst m. now destruct b.
Qed.

Lemma days_before_month_january (y : Z) : days_before_month y 1 = 0.
Proof. reflexivity. Qed.

Lemma days_before_month_december (y : Z) :
  days_before_month y 12 = 334 + (if is_leap y then 1 else 0).
Proof.
  unfold days_before_month. generalize (is_leap y). now intros [].
Qed.

Lemma days_in_month_december (y : Z) : days_in_month y 12 = 31.
Proof. reflexivity. Qed.

Lemma toordinal_next_day (d : date) :
  1 <= month d <= 12 ->
  1 <= day d <= days_in_month (year d) (month d) ->
  toordinal (next_day d) = toordinal d + 1.
Proof.
  intros Hm Hd. unfold next_day.
  destruct (Z.ltb_spec (day d) (days_in_month (year d) (month d))) as [H|H].
  - unfold toordinal. cbn [year month day]. lia.
  - destruct (Z.ltb_spec (month d) 12) as [H12|H12].
    + unfold toordinal. cbn [year month day].
      rewrite days_before_month_succ by lia. lia.
    + assert (E : month d = 12) by lia.
      unfold toordinal. cbn [year month day].
      rewrite days_before_year_succ. rewrite E in *.
      rewrite days_before_month_january, days_before_month_december.
      rewrite days_in_month_december in *.
      destruct (is_leap (year d)); lia.
Qed.

Lemma next_day_fields (d : date) :
  1 <= month d <= 12 ->
  1 <= day d <= days_in_month (year d) (month d) ->
  1 <= month (next_day d) <= 12
  /\ 1 <= day (next_day d)
       <= days_in_month (year (next_day d)) (month (next_day d)).
Proof.
  intros Hm Hd. unfold next_day.
  pose proof (days_in_month_bounds (year d) (month d + 1)).
  pose proof (days_in_month_bounds (year d + 1) 1).
  destruct (Z.ltb_spec (day d) (days_in_month (year d) (month d)));
    [cbn [year month day]; lia|].
  destruct (Z.ltb_spec (month d) 12); cbn [year month day]; lia.
Qed.

Lemma toordinal_iter_next_day (n : nat) (d : date) :
  1 <= month d <= 12 ->
  1 <= day d <= days_in_month (year d) (month d) ->
  toordinal (Nat.iter n next_day d) = toordinal d + Z.of_nat n
  /\ 1 <= month (Nat.iter n next_day d) <= 12
  /\ 1 <= day (Nat.iter n next_day d)
       <= days_in_month (year (Nat.iter n next_day d))
                        (month (Nat.iter n next_day d)).
Proof.
  intros Hm Hd. induction n as [|n (IH1 & IH2 & IH3)].
  - change (Nat.iter 0 next_day d) with d. repeat split; lia.
  - rewrite Nat.iter_succ. rewrite toordinal_next_day by assumption.
    split; [lia|]. now apply next_day_fields.
Qed.

(** Moving a date forward by [n] days moves its ordinal by [n]. *)
Lemma toordinal_shift (d : date) (n : Z) :
  1 <= month d <= 12 ->
  1 <= day d <= days_in_month (year d) (month d) ->
  0 <= n ->
  toordinal (shift d n) = toordinal d + n.
Proof.
  intros Hm Hd Hn. unfold shift. rewrite (proj2 (Z.leb_le 0 n)) by lia.
  destruct (toordinal_iter_next_day (Z.to_nat n) d Hm Hd) as [E _].
  rewrite E. lia.
Qed.

Lemma weekday_range (d : date) : 0 <= weekday d <= 6.
Proof. unfold weekday. Z.div_mod_to_equations. lia. Qed.

Lemma weekday_of_week_end (d : date) :
  1 <= month d <= 12 ->
  1 <= day d <= days_in_month (year d) (month d) ->
  weekday (shift d (6 - weekday d)) = 6.
Proof.
  intros Hm Hd. pose proof (weekday_range d) as Hw.
  unfold weekday at 1. rewrite toordinal_shift by (try assumption; lia).
  unfold weekday in *. Z.div_mod_to_equations. lia.
Qed.

(** ** The ends of the week, the quarter and the year *)

Lemma valid_date_intro (d : date) :
  1 <= year d <= 9999 -> 1 <= month d <= 12 ->
  1 <= day d <= days_in_month (year d) (month d) ->
  valid_date d = true.
Proof.
  intros Hy Hm Hd. unfold valid_date, MINYEAR, MAXYEAR.
  repeat match goal with
         | |- context [?a <=? ?b] =>
             rewrite (proj2 (Z.leb_le a b)) by lia
         end.
  reflexivity.
Qed.

Lemma shift_valid (d : date) (n : Z) :
  valid_date d = true -> year d < MAXYEAR -> 0 <= n <= 28 ->
  valid_date (shift d n) = true.
Proof.
  intros Hv Hy Hn. pose proof (valid_date_fields d Hv) as (Hyr & Hm & Hd).
  unfold MAXYEAR in Hy.
  pose proof (add_small_year d n) as Hb.
  rewrite <- (shift_small d n Hd Hn) in Hb.
  destruct (toordinal_iter_next_day (Z.to_nat n) d Hm Hd) as (_ & Hm' & Hd').
  assert (E : shift d n = Nat.iter (Z.to_nat n) next_day d).
  { unfold shift. now rewrite (proj2 (Z.leb_le 0 n)) by lia. }
  rewrite <- E in Hm', Hd'. apply valid_date_intro; lia.
Qed.

Lemma last_day_of_month_valid (d : date) :
  valid_date d = true -> valid_date (last_day_of_month d) = true.
Proof.
  intros Hv. pose proof (valid_date_fields d Hv) as (Hyr & Hm & Hd).
  pose proof (days_in_month_bounds (year d) (month d)).
  apply valid_date_intro; unfold last_day_of_month; cbn [year month day]; lia.
Qed.

Lemma quarter_end_month_range (m : Z) :
  1 <= m <= 12 ->
  (quarter_end_month m = 3 \/ quarter_end_month m = 6
   \/ quarter_end_month m = 9 \/ quarter_end_month m = 12)
  /\ m <= quarter_end_month m <= m + 2.
Proof.
  intros H. unfold quarter_end_month. Z.div_mod_to_equations. lia.
Qed.

(** [get_end_of_week] gives the Sunday of the running week, at 23:59:59:
    a day that is a Sunday, not before the given day and at most six days
    after it. *)
Theorem get_end_of_week_sunday :
  forall dt : datetime,
    valid_date (fst dt) = true ->
    year (fst dt) < MAXYEAR ->
    exists r,
      get_end_of_week dt = Ok r
      /\ weekday (fst r) = 6
      /\ toordinal (fst dt) <= toordinal (fst r) <= toordinal (fst dt) + 6
      /\ snd r = end_of_day + snd dt mod 1000000.
Proof.
  intros [d us] Hv Hy. cbn [fst snd] in *.
  pose proof (valid_date_fields d Hv) as (Hyr & Hm & Hd).
  pose proof (weekday_range d) as Hw.
  exists (shift d (6 - weekday d), end_of_day + us mod 1000000).
  unfold get_end_of_week, datetime_add, replace_time_end_of_day.
  cbn [fst snd]. rewrite date_add_small by (try assumption; lia).
  split; [reflexivity|]. cbn [fst snd].
  split; [now apply weekday_of_week_end|].
  rewrite toordinal_shift by (try assumption; lia). split; [lia|reflexivity].
Qed.

Lemma get_end_of_week_sunday_witness :
  valid_date (fst june_10_afternoon) = true
  /\ year (fst june_10_afternoon) < MAXYEAR
  /\ exists r,
       get_end_of_week june_10_afternoon = Ok r
       /\ weekday (fst r) = 6
       /\ toordinal (fst june_10_afternoon) <= toordinal (fst r)
          <= toordinal (fst june_10_afternoon) + 6
       /\ snd r = end_of_day + snd june_10_afternoon mod 1000000.
Proof.
  split; [reflexivity|]. split; [reflexivity|].
  apply get_end_of_week_sunday; reflexivity.
Defined.

Lemma get_end_of_quarter_value (dt : datetime) :
  valid_date (fst dt) = true ->
  get_end_of_quarter dt
  = Ok (mkdate (year (fst dt)) (quarter_end_month (month (fst dt)))
               (days_in_month (year (fst dt))
                              (quarter_end_month (month (fst dt)))),
        end_of_day).
Proof.
  destruct dt as [d us]. cbn [fst snd]. intros Hv.
  pose proof (valid_date_fields d Hv) as (Hyr & Hm & Hd).
  pose proof (quarter_end_month_range (month d) Hm) as [Hq Hr].
  unfold get_end_of_quarter. cbn [fst]. fold (quarter_end_month (month d)).
  set (q := quarter_end_month (month d)) in *. unfold datetime_new.
  destruct (Z.eqb_spec q 12) as [E|E].
  - rewrite E. rewrite date_new_ok by (cbn; lia). reflexivity.
  - pose proof (days_in_month_bounds (year d) (q + 1)).
    pose proof (days_in_month_bounds (year d) q).
    rewrite date_new_ok by lia. cbn [bind]. unfold datetime_add.
    cbn [fst snd]. unfold date_add. cbv zeta.
    assert (Ef : mkdate (year d) (q + 1) 1
                 = first_of_next_month (mkdate (year d) q 1)).
    { unfold first_of_next_month. cbn [year month].
      now rewrite (proj2 (Z.ltb_lt q 12)) by lia. }
    rewrite Ef, prev_day_first_of_next_month by (cbn; lia).
    unfold last_day_of_month, MINYEAR, MAXYEAR. cbn [year month day].
    rewrite (proj2 (Z.leb_le 1 _)), (proj2 (Z.leb_le _ 9999)) by lia.
    reflexivity.
Qed.

(** [get_end_of_quarter] gives the last day of the last month of the
    quarter (March, June, September or December of the same year), at
    23:59:59. *)
Theorem get_end_of_quarter_last_day :
  forall dt : datetime,
    valid_date (fst dt) = true ->
    let q := quarter_end_month (month (fst dt)) in
    get_end_of_quarter dt
    = Ok (mkdate (year (fst dt)) q (days_in_month (year (fst dt)) q),
          end_of_day)
    /\ (q = 3 \/ q = 6 \/ q = 9 \/ q = 12)
    /\ month (fst dt) <= q <= month (fst dt) + 2.
Proof.
  intros dt Hv q. split; [now apply get_end_of_quarter_value|].
  pose proof (valid_date_fields (fst dt) Hv) as (_ & Hm & _).
  apply (quarter_end_month_range (month (fst dt)) Hm).
Qed.

Lemma get_end_of_quarter_last_day_witness :
  valid_date (fst june_10_afternoon) = true
  /\ get_end_of_quarter june_10_afternoon
     = Ok (mkdate 2024 6 30, end_of_day).
Proof.
  split; [reflexivity|].
  apply (get_end_of_quarter_last_day june_10_afternoon). reflexivity.
Defined.

(** ** [parse_due_date] *)

Lemma month_end_via_next_month (today : datetime) :
  valid_date (fst today) = true -> year (fst today) < MAXYEAR ->
  (next_month <-
     (if month (fst today) =? 12
      then datetime_new (year (fst today) + 1) 1 1 0
      else datetime_new (year (fst today)) (month (fst today) + 1) 1 0) ;;
   datetime_add next_month (-1))
  = Ok (last_day_of_month (fst today), 0).
Proof.
  destruct today as [d us]. cbn [fst]. intros Hv Hy.
  pose proof (valid_date_fields d Hv) as (Hyr & Hm & Hd).
  unfold MAXYEAR in Hy.
  pose proof (days_in_month_bounds (year d) (month d)).
  pose proof (days_in_month_bounds (year d) (month d + 1)).
  pose proof (days_in_month_bounds (year d + 1) 1).
  assert (E : (if month d =? 12
               then datetime_new (year d + 1) 1 1 0
               else datetime_new (year d) (month d + 1) 1 0)
              = Ok (first_of_next_month d, 0)).
  { unfold datetime_new, first_of_next_month.
    destruct (Z.eqb_spec (month d) 12) as [E|E].
    - rewrite date_new_ok by lia.
      now rewrite (proj2 (Z.ltb_ge (month d) 12)) by lia.
    - rewrite date_new_ok by lia.
      now rewrite (proj2 (Z.ltb_lt (month d) 12)) by lia. }
  rewrite E. cbn [bind]. unfold datetime_add. cbn [fst snd].
  unfold date_add. cbv zeta. rewrite prev_day_first_of_next_month by lia.
  unfold last_day_of_month, MINYEAR, MAXYEAR. cbn [year].
  rewrite (proj2 (Z.leb_le 1 _)), (proj2 (Z.leb_le _ 9999)) by lia.
  reflexivity.
Qed.

Lemma shorthand_date_valid (word : string) (d0 : date) :
  valid_date d0 = true -> year d0 < MAXYEAR ->
  valid_date (shorthand_date word d0) = true.
Proof.
  intros Hv Hy. pose proof (valid_date_fields d0 Hv) as (Hyr & Hm & Hd).
  pose proof (weekday_range d0) as Hw.
  unfold shorthand_date.
  destruct (String.eqb word "today"); [exact Hv|].
  destruct (String.eqb word "tomorrow").
  { rewrite <- shift_1_next. apply shift_valid; try assumption. lia. }
  destruct (String.eqb word "week").
  { apply shift_valid; try assumption. lia. }
  destruct (String.eqb word "month");
    [now apply last_day_of_month_valid|].
  destruct (String.eqb word "quarter").
  { pose proof (quarter_end_month_range (month d0) Hm) as [Hq _].
    pose proof (days_in_month_bounds (year d0)
                                     (quarter_end_month (month d0))).
    apply last_day_of_month_valid. apply valid_date_intro;
      cbn [year month day]; lia. }
  apply valid_date_intro; unfold last_day_of_year; cbn [year month day];
    try lia. rewrite days_in_month_december. lia.
Qed.

(** Each shorthand resolves to the date it names. *)
Lemma parse_due_date_shorthand (s : string) (today : datetime) :
  valid_date (fst today) = true -> year (fst today) < MAXYEAR ->
  In (lower s) shorthands ->
  parse_due_date (Some s) today
  = Returns (Some (strftime_ymd (shorthand_date (lower s) (fst today)))).
Proof.
  intros Hv Hy Hin.
  pose proof (valid_date_fields (fst today) Hv) as (Hyr & Hm & Hd).
  pose proof (weekday_range (fst today)) as Hw.
  assert (Hs : String.eqb s EmptyString = false).
  { rewrite <- lower_empty. unfold shorthands in Hin.
    repeat (destruct Hin as [<-|Hin]; [reflexivity|]). contradiction. }
  unfold parse_due_date. rewrite Hs. cbv zeta. unfold shorthand_date.
  unfold shorthands in Hin.
  destruct Hin as [<-|[<-|[<-|[<-|[<-|[<-|[]]]]]]];
    cbv beta iota zeta delta [String.eqb Ascii.eqb Bool.eqb].
  - reflexivity.
  - unfold datetime_add. rewrite date_add_small by (try assumption; lia).
    reflexivity.
  - unfold get_end_of_week, datetime_add, replace_time_end_of_day.
    cbn [fst snd]. rewrite date_add_small by (try assumption; lia).
    reflexivity.
  - rewrite month_end_via_next_month by assumption. reflexivity.
  - rewrite (get_end_of_quarter_value today Hv). reflexivity.
  - unfold get_end_of_year, datetime_new.
    rewrite date_new_ok by (try rewrite days_in_month_december; lia).
    reflexivity.
Qed.

(** The six shorthand words, in any letter case, resolve to a date string
    that the engine's [strptime] reads back as the date the word names:
    today, the next day, the Sunday of the running week, the last day of
    the month, of the quarter and of the year. *)
Theorem parse_due_date_shorthands :
  forall (s : string) (today : datetime),
    valid_date (fst today) = true ->
    1000 <= year (fst today) < MAXYEAR ->
    In (lower s) shorthands ->
    let d := shorthand_date (lower s) (fst today) in
    parse_due_date (Some s) today = Returns (Some (strftime_ymd d))
    /\ strptime_ymd (strftime_ymd d) = Ok d.
Proof.
  intros s today Hv [_ Hy] Hin d. split.
  - now apply parse_due_date_shorthand.
  - apply strptime_strftime. now apply shorthand_date_valid.
Qed.

Lemma parse_due_date_shorthands_witness :
  valid_date (fst june_10_afternoon) = true
  /\ 1000 <= year (fst june_10_afternoon) < MAXYEAR
  /\ In (lower "Week") shorthands
  /\ parse_due_date (Some "Week"%string) june_10_afternoon
     = Returns (Some "2024-06-16"%string)
  /\ strptime_ymd "2024-06-16" = Ok (mkdate 2024 6 16).
Proof.
  assert (Hy : 1000 <= year (fst june_10_afternoon) < MAXYEAR)
    by (split; [discriminate|reflexivity]).
  assert (Hin : In (lower "Week") shorthands)
    by (right; right; left; reflexivity).
  split; [reflexivity|]. split; [exact Hy|]. split; [exact Hin|].
  apply (parse_due_date_shorthands "Week" june_10_afternoon eq_refl Hy Hin).
Defined.





(** * Lookup and the listings after a mutation *)

(** [get_task] answers with a stored task that has the requested
    identifier, and with nothing exactly when no stored task has it. *)
Theorem get_task_found_or_absent :
  forall (task_id : Z) (w : World),
    match get_task task_id w with
    | Some t => In t (load_tasks w) /\ Task.id t = task_id
    | None => ~ In task_id (live_ids w)
    end.
Proof.
  intros task_id w. unfold get_task, live_ids.
  destruct (find _ (load_tasks w)) as [t|] eqn:E.
  - apply find_some in E as [Hin Hid]. split; [exact Hin|].
    now apply Z.eqb_eq in Hid.
  - intros Hin. apply in_map_iff in Hin as (t & Hid & Hin).
    pose proof (find_none _ _ E t Hin) as Hn. cbv beta in Hn.
    rewrite Hid, Z.eqb_refl in Hn. discriminate.
Qed.

Lemma find_unique_id (i : Z) (l : list Task.t) (t : Task.t) :
  NoDup (map Task.id l) -> In t l -> Task.id t = i ->
  find (fun x => Task.id x =? i) l = Some t.
Proof.
  induction l as [|x xs IH]; intros Hn Hin Hid; [contradiction|].
  cbn [map] in Hn. apply NoDup_cons_iff in Hn as [Hx Hn]. cbn [find].
  destruct Hin as [->|Hin].
  - now rewrite Hid, Z.eqb_refl.
  - destruct (Z.eqb_spec (Task.id x) i) as [E|E]; [|now apply IH].
    exfalso. apply Hx. rewrite E, <- Hid. now apply in_map.
Qed.

(** Finishing a task takes it out of the default listing: in a store
    with distinct identifiers, after [finish i] no listing without a status
    filter shows a task with identifier [i], whatever the other filters,
    the order and the limit. *)
Theorem finish_leaves_active_listing :
  forall (i : Z) (now : string) (w : World) (task : Task.t)
         (filters : ListTasks.t) (today : date) (l : list Task.t),
    NoDup (live_ids w) ->
    get_task i w = Some task ->
    ListTasks.status filters = None ->
    list_tasks filters today (snd (update_task (finish i) now w)) = Ok l ->
    ~ In i (map Task.id l).
Proof.
  intros i now w task filters today l Hn Hg Hs Hl Hin.
  apply in_map_iff in Hin as (t & Hid & Hin).
  apply list_tasks_incl in Hl. apply Hl in Hin.
  apply basic_filters_status in Hin as [Hin Hst]. rewrite Hs in Hst.
  destruct (update_task_found (finish i) now w task Hg) as [E1 E2].
  cbn [UpdateTask.id finish] in E1, E2.
  assert (Hn1 : NoDup (map Task.id
                         (load_tasks (snd (update_task (finish i) now w))))).
  { rewrite E1. cbn [snd]. rewrite load_save.
    rewrite map_id_update_first; [exact Hn|].
    intros x. apply apply_update_id. }
  unfold get_task in E2.
  rewrite (find_unique_id i _ t Hn1 Hin Hid) in E2.
  injection E2 as ->.
  unfold apply_update, finish in Hst.
  cbn [UpdateTask.name UpdateTask.desc UpdateTask.tags UpdateTask.due_date
       UpdateTask.priority UpdateTask.status assign_if_given] in Hst.
  unfold assign_status in Hst.
  destruct (String.eqb "completed" "completed"
            && negb (String.eqb (Task.status task) "completed"))%bool;
    discriminate.
Qed.

Lemma finish_leaves_active_listing_witness :
  NoDup (live_ids sample_world)
  /\ get_task 1 sample_world = Some sample_task
  /\ list_tasks (by_id None) june_10
       (snd (update_task (finish 1) "2024-06-12T18:00:00" sample_world))
     = Ok []
  /\ ~ In 1 (map Task.id (@nil Task.t)).
Proof.
  assert (Hn : NoDup (live_ids sample_world))
    by (repeat constructor; intros []).
  split; [exact Hn|]. split; [reflexivity|]. split; [reflexivity|].
  apply (finish_leaves_active_listing 1 "2024-06-12T18:00:00" sample_world
           sample_task (by_id None) june_10 [] Hn eq_refl eq_refl eq_refl).
Defined.
